(** * The queued business scorer

    A shallow embedding of
    [orchestrator-advanced/python_orchestrator/queued_scorer.py]: the
    [ScoringJob] record with its dictionary form, the threshold scorer, and
    the Redis-backed queue and worker of [QueuedScorer].

    Python values are embedded as follows.
    - [int] is [Z]; [float] is an IEEE binary64 number, Rocq's primitive
      [float], so that products such as [50 * 1.15] round as they do in
      CPython.
    - [str] is [string]; a [list] and a [tuple] are lists under two
      constructors; a [dict] is a [gmap string _]: distinct keys, and
      equality that ignores insertion order, as [==] on Python dicts
      does.  Keys are strings, as the annotation [Dict[str, Any]] of the
      payload declares them.
    - An exception is a value of [exn]; code that can raise returns a
      [result], and code that talks to Redis, the clock or the uuid source
      threads a [World]. *)

From Stdlib Require Import ZArith String Ascii List Lia Bool.
From Stdlib Require Import Floats.PrimFloat Floats.SpecFloat Floats.FloatOps.
From stdpp Require Import gmap strings.

#[local] Open Scope Z_scope.
#[local] Set Warnings "-inexact-float,-register-all".

(** ** Values, exceptions *)

Inductive pyval : Type :=
| VNone
| VBool (b : bool)
| VInt (n : Z)
| VFloat (x : float)
| VStr (s : string)
| VList (l : list pyval)
| VTuple (l : list pyval)
| VDict (d : gmap string pyval).

Abbreviation pydict := (gmap string pyval).

(** [type(v).__name__], as it appears in error messages. *)
Definition type_name (v : pyval) : string :=
  match v with
  | VNone => "NoneType"
  | VBool _ => "bool"
  | VInt _ => "int"
  | VFloat _ => "float"
  | VStr _ => "str"
  | VList _ => "list"
  | VTuple _ => "tuple"
  | VDict _ => "dict"
  end.

(** [d.get(key, dflt)]. *)
Definition dict_get (d : pydict) (key : string) (dflt : pyval) : pyval :=
  default dflt (d !! key).

(** Truth value testing, [bool(v)]. *)
Definition truthy (v : pyval) : bool :=
  match v with
  | VNone => false
  | VBool b => b
  | VInt n => negb (n =? 0)
  | VFloat x => negb (PrimFloat.eqb x 0%float)
  | VStr s => negb (String.eqb s "")
  | VList l | VTuple l => match l with [] => false | _ => true end
  | VDict d => negb (Nat.eqb (size d) 0)
  end.

(** The classes of the exceptions that occur; all of them derive from
    [Exception], the class the handlers of the module name.  What the host
    does to the process from outside is not an exception of this code: an
    interrupt ([KeyboardInterrupt], which [start_worker] handles apart) is
    not modelled, the death of the process is (see [outcome]). *)
Inductive exn_class : Type :=
| TypeError
| ValueError
| AttributeError
| ResponseError
| JSONDecodeError.

(** An exception instance; [message] is [str(e)]. *)
Record exn : Type := Exception { exn_type : exn_class; message : string }.

Inductive result (A : Type) : Type :=
| Ok (a : A)
| Raise (e : exn).
Arguments Ok {A} a.
Arguments Raise {A} e.

#[global] Instance result_ret : MRet result := fun A a => Ok a.
#[global] Instance result_bind : MBind result :=
  fun A B f m => match m with Ok a => f a | Raise e => Raise e end.

(** ** Numbers *)

(** [float(n)]: the binary64 number nearest to the integer [n] (ties to
    even). *)
Definition float_of_int (n : Z) : float :=
  SF2Prim (binary_normalize 53 1024 n 0 false).

(** [v < n] for an [int] literal [n].  Numbers compare by value ([bool] is
    a subclass of [int]); anything else raises [TypeError].  A float is
    compared with [float(n)], which is [n] itself for the literals of this
    module (all below 2^53). *)
Definition lt_int (v : pyval) (n : Z) : result bool :=
  match v with
  | VInt a => Ok (a <? n)
  | VBool b => Ok (Z.b2z b <? n)
  | VFloat x => Ok (PrimFloat.ltb x (float_of_int n))
  | _ => Raise (Exception TypeError
           ("'<' not supported between instances of '" +:+ type_name v +:+ "' and 'int'"))
  end.

(** [num / den] rounded to the nearest integer, ties to even ([den > 0]). *)
Definition round_half_even (num den : Z) : Z :=
  let q := num / den in
  match 2 * (num mod den) ?= den with
  | Lt => q
  | Gt => q + 1
  | Eq => if Z.even q then q else q + 1
  end.

(** [round(x, ndigits)] on a float, for [ndigits >= 0]: CPython rounds the
    exact binary value of [x] to [ndigits] decimals, ties to even, and
    returns the float nearest to that decimal.  Infinities, NaN, zeros and
    integral values come back unchanged.  The last step is the division of
    two floats, which is the nearest float to the decimal as long as the
    scaled integer is below 2^53, that is for [|x| * 10^ndigits < 2^53]. *)
Definition py_round (x : float) (ndigits : Z) : float :=
  match Prim2SF x with
  | S754_finite s m e =>
      if 0 <=? e then x
      else
        let p := 10 ^ ndigits in
        let n := round_half_even (Z.pos m * p) (2 ^ (- e)) in
        let r := PrimFloat.div (float_of_int n) (float_of_int p) in
        if s then PrimFloat.opp r else r
  | _ => x
  end.

(** ** The scorer *)

Record score_data : Type := ScoreData { sd_score : float; sd_reasoning : list string }.

(** [QueuedScorer._score_revenue]; [profit] is not read. *)
Definition _score_revenue (revenue profit : pyval) : result Z :=
  b ← lt_int revenue 1000;
  if b : bool then mret 20 else
  b ← lt_int revenue 5000;
  if b : bool then mret 40 else
  b ← lt_int revenue 15000;
  if b : bool then mret 60 else
  b ← lt_int revenue 50000;
  if b : bool then mret 80 else mret 95.

(** [QueuedScorer._score_growth]. *)
Definition _score_growth (growth_rate : pyval) : result Z :=
  b ← lt_int growth_rate 0;
  if b : bool then mret 10 else
  b ← lt_int growth_rate 5;
  if b : bool then mret 30 else
  b ← lt_int growth_rate 15;
  if b : bool then mret 60 else
  b ← lt_int growth_rate 30;
  if b : bool then mret 80 else mret 95.

Definition industry_multipliers : gmap string float :=
  list_to_map
    [ ("SaaS", 1.2%float);
      ("E-commerce", 1.1%float);
      ("Marketplace", 1.15%float);
      ("Mobile App", 1.0%float);
      ("Web App", 1.0%float);
      ("Service", 0.9%float) ].

(** [hash(v)] raises for a list, for a dict, and for a tuple that holds
    one: the name of the type that cannot be hashed. *)
Fixpoint unhashable (v : pyval) : option string :=
  match v with
  | VList _ => Some "list"
  | VDict _ => Some "dict"
  | VTuple l =>
      (fix first (l : list pyval) : option string :=
         match l with
         | [] => None
         | x :: rest =>
             match unhashable x with
             | Some t => Some t
             | None => first rest
             end
         end) l
  | _ => None
  end.

(** [industry_multipliers.get(industry, 1.0)]: the key is hashed first, so a
    list or a dict raises, and so does a tuple that holds one; a hashable
    key that is not a string equals no key of the table. *)
Definition multiplier_get (industry : pyval) : result float :=
  match industry with
  | VStr s => Ok (default 1.0%float (industry_multipliers !! s))
  | VList _ | VDict _ =>
      Raise (Exception TypeError ("unhashable type: '" +:+ type_name industry +:+ "'"))
  | VTuple _ =>
      match unhashable industry with
      | Some t => Raise (Exception TypeError ("unhashable type: '" +:+ t +:+ "'"))
      | None => Ok 1.0%float
      end
  | _ => Ok 1.0%float
  end.

(** [QueuedScorer._score_market]: an [int] literal times the float
    multiplier. *)
Definition _score_market (market_size industry : pyval) : result float :=
  multiplier ← multiplier_get industry;
  b ← lt_int market_size 100000;
  if b : bool then mret (float_of_int 30 * multiplier)%float else
  b ← lt_int market_size 1000000;
  if b : bool then mret (float_of_int 50 * multiplier)%float else
  b ← lt_int market_size 10000000;
  if b : bool then mret (float_of_int 70 * multiplier)%float
  else mret (float_of_int 90 * multiplier)%float.

(** [QueuedScorer._score_experience]. *)
Definition _score_experience (years_operated : pyval) : result Z :=
  b ← lt_int years_operated 1;
  if b : bool then mret 30 else
  b ← lt_int years_operated 3;
  if b : bool then mret 50 else
  b ← lt_int years_operated 5;
  if b : bool then mret 70 else mret 85.

Definition revenue_sentence (revenue_score : Z) : string :=
  if 80 <=? revenue_score then "Strong revenue generation with healthy profitability"
  else if 60 <=? revenue_score then "Moderate revenue with decent profit margins"
  else "Revenue needs improvement for better investment appeal".

Definition growth_sentence (growth_score : Z) : string :=
  if 80 <=? growth_score then "Excellent growth trajectory indicating market opportunity"
  else if 60 <=? growth_score then "Steady growth with potential for acceleration"
  else "Growth is limited, may need strategic improvements".

Definition market_sentence (market_score : float) : string :=
  if (float_of_int 80 <=? market_score)%float
  then "Large addressable market with favorable industry dynamics"
  else if (float_of_int 60 <=? market_score)%float
  then "Decent market size with reasonable competition"
  else "Market opportunity may be limited".

Definition experience_sentence (experience_score : Z) : string :=
  if 80 <=? experience_score then "Proven track record with established operations"
  else if 60 <=? experience_score then "Some operational experience with growth potential"
  else "Newer operation requiring additional validation".

(** [QueuedScorer._generate_reasoning]: one [append] per sub-score. *)
Definition _generate_reasoning (revenue_score growth_score : Z) (market_score : float)
    (experience_score : Z) (business_data : pydict) : list string :=
  let reasoning := [] in
  let reasoning := reasoning ++ [revenue_sentence revenue_score] in
  let reasoning := reasoning ++ [growth_sentence growth_score] in
  let reasoning := reasoning ++ [market_sentence market_score] in
  let reasoning := reasoning ++ [experience_sentence experience_score] in
  reasoning.

(** The weighted average of [_score_business], summed left to right. *)
Definition overall_score (revenue_score growth_score : Z) (market_score : float)
    (experience_score : Z) : float :=
  (float_of_int revenue_score * 0.3 +
   float_of_int growth_score * 0.25 +
   market_score * 0.25 +
   float_of_int experience_score * 0.2)%float.

(** [QueuedScorer._score_business]. *)
Definition _score_business (business_data : pydict) : result score_data :=
  let monthly_revenue := dict_get business_data "monthly_revenue" (VInt 0) in
  let monthly_profit := dict_get business_data "monthly_profit" (VInt 0) in
  let growth_rate := dict_get business_data "growth_rate" (VInt 0) in
  let market_size := dict_get business_data "market_size" (VInt 0) in
  let industry := dict_get business_data "industry" (VStr "General") in
  let years_operated := dict_get business_data "years_operated" (VInt 0) in
  revenue_score ← _score_revenue monthly_revenue monthly_profit;
  growth_score ← _score_growth growth_rate;
  market_score ← _score_market market_size industry;
  experience_score ← _score_experience years_operated;
  let overall := overall_score revenue_score growth_score market_score experience_score in
  let reasoning :=
    _generate_reasoning revenue_score growth_score market_score experience_score
      business_data in
  mret (ScoreData (py_round overall 2) reasoning).

(** The first business of the module's [__main__] block (its ['name'] key
    is not read by the scorer). *)
Definition saas_company_a : pydict :=
  list_to_map
    [ ("monthly_revenue", VInt 25000);
      ("monthly_profit", VInt 15000);
      ("growth_rate", VInt 25);
      ("market_size", VInt 50000000);
      ("industry", VStr "SaaS");
      ("years_operated", VInt 3) ].

(** ** Timestamps *)

(** A [datetime.datetime]; [utcoffset] is [None] for a naive value (what
    [datetime.utcnow()] returns) and the offset east of UTC, in whole
    minutes, for an aware one. *)
Record datetime : Type := Datetime {
  year : Z;
  month : Z;
  day : Z;
  hour : Z;
  minute : Z;
  second : Z;
  microsecond : Z;
  utcoffset : option Z
}.

Definition is_leap (y : Z) : bool :=
  (y mod 4 =? 0) && (negb (y mod 100 =? 0) || (y mod 400 =? 0)).

Definition days_in_month (y m : Z) : Z :=
  if m =? 2 then (if is_leap y then 29 else 28)
  else if (m =? 4) || (m =? 6) || (m =? 9) || (m =? 11) then 30
  else 31.

Definition in_range (lo x hi : Z) : bool := (lo <=? x) && (x <=? hi).

(** The range checks of the [datetime] constructor: every Python datetime
    object satisfies them. *)
Definition datetime_ok (d : datetime) : bool :=
  in_range 1 (year d) 9999 &&
  in_range 1 (month d) 12 &&
  in_range 1 (day d) (days_in_month (year d) (month d)) &&
  in_range 0 (hour d) 23 &&
  in_range 0 (minute d) 59 &&
  in_range 0 (second d) 59 &&
  in_range 0 (microsecond d) 999999 &&
  match utcoffset d with
  | None => true
  | Some off => in_range (-1439) off 1439
  end.

(** The character of a digit below 16, lower case as [hex] and [%x] print
    it. *)
Definition digit_char (d : Z) : ascii :=
  ascii_of_nat (Z.to_nat (if d <? 10 then 48 + d else 87 + d)).

(** The value of a decimal digit character. *)
Definition digit_val (c : ascii) : option Z :=
  let n := Z.of_nat (nat_of_ascii c) in
  if in_range 48 n 57 then Some (n - 48) else None.

(** [n] written with exactly [k] digits in [base], most significant first
    (the [%0kd] of [isoformat]). *)
Fixpoint zfill (base : Z) (k : nat) (n : Z) : string :=
  match k with
  | O => EmptyString
  | S k' => String (digit_char ((n / base ^ Z.of_nat k') mod base)) (zfill base k' n)
  end.

(** Reads exactly [k] decimal digits. *)
Fixpoint read_digits (k : nat) (acc : Z) (s : string) : option (Z * string) :=
  match k with
  | O => Some (acc, s)
  | S k' =>
      match s with
      | String c rest =>
          match digit_val c with
          | Some d => read_digits k' (acc * 10 + d) rest
          | None => None
          end
      | EmptyString => None
      end
  end.

Definition expect (c : ascii) (s : string) : option string :=
  match s with
  | String c' rest => if Ascii.eqb c' c then Some rest else None
  | EmptyString => None
  end.

Definition format_offset (tz : option Z) : string :=
  match tz with
  | None => ""
  | Some off =>
      (if off <? 0 then "-" else "+") +:+
      zfill 10 2 (Z.abs off / 60) +:+ ":" +:+ zfill 10 2 (Z.abs off mod 60)
  end.

(** [datetime.isoformat()]: [YYYY-MM-DDTHH:MM:SS], then [.ffffff] when the
    microsecond is not zero, then [+HH:MM] for an aware value. *)
Definition isoformat (d : datetime) : string :=
  zfill 10 4 (year d) +:+ "-" +:+ zfill 10 2 (month d) +:+ "-" +:+ zfill 10 2 (day d) +:+
  "T" +:+ zfill 10 2 (hour d) +:+ ":" +:+ zfill 10 2 (minute d) +:+ ":" +:+
  zfill 10 2 (second d) +:+
  (if microsecond d =? 0 then "" else "." +:+ zfill 10 6 (microsecond d)) +:+
  format_offset (utcoffset d).

Definition parse_fraction (s : string) : option (Z * string) :=
  match s with
  | String "."%char rest => read_digits 6 0 rest
  | _ => Some (0, s)
  end.

Definition parse_offset (s : string) : option (option Z) :=
  match s with
  | EmptyString => Some None
  | String c rest =>
      sign ← (if Ascii.eqb c "+" then Some 1
              else if Ascii.eqb c "-" then Some (-1) else None);
      '(hh, rest) ← read_digits 2 0 rest;
      rest ← expect ":" rest;
      '(mm, rest) ← read_digits 2 0 rest;
      match rest with
      | EmptyString =>
          if in_range 0 hh 23 && in_range 0 mm 59
          then Some (Some (sign * (hh * 60 + mm))) else None
      | _ => None
      end
  end.

Definition parse_isoformat (s : string) : option datetime :=
  '(y, s) ← read_digits 4 0 s;
  s ← expect "-" s;
  '(mo, s) ← read_digits 2 0 s;
  s ← expect "-" s;
  '(d, s) ← read_digits 2 0 s;
  s ← expect "T" s;
  '(h, s) ← read_digits 2 0 s;
  s ← expect ":" s;
  '(mi, s) ← read_digits 2 0 s;
  s ← expect ":" s;
  '(sec, s) ← read_digits 2 0 s;
  '(us, s) ← parse_fraction s;
  tz ← parse_offset s;
  Some (Datetime y mo d h mi sec us tz).

(** [datetime.fromisoformat], on the spelling [isoformat] produces (the
    date, [T], the time to the second, an optional six-digit fraction, an
    optional [+HH:MM] offset).  Python versions differ on which further
    spellings they accept; the embedding rejects them all with the
    [ValueError] of a malformed string. *)
Definition fromisoformat (s : string) : result datetime :=
  match parse_isoformat s with
  | Some d =>
      if datetime_ok d then Ok d
      else Raise (Exception ValueError ("Invalid isoformat string: '" +:+ s +:+ "'"))
  | None => Raise (Exception ValueError ("Invalid isoformat string: '" +:+ s +:+ "'"))
  end.

(** [s.replace(old, new)] for a one-character [old]. *)
Fixpoint str_replace (old : ascii) (new : string) (s : string) : string :=
  match s with
  | EmptyString => EmptyString
  | String c rest =>
      if Ascii.eqb c old then new +:+ str_replace old new rest
      else String c (str_replace old new rest)
  end.

(** ** The host: wall clock and random bits *)

(** What the process reads from its host: the wall clock, and the state of
    the random source [uuid.uuid4] draws from.  The clock does not move
    inside one call of this module; the host may move it between calls. *)
Record Host : Type := { clock : datetime; entropy : N }.

(** [datetime.utcnow()]. *)
Definition utcnow (h : Host) : datetime := clock h.

(** [str(uuid.UUID(int=bits, version=4))]: variant and version bits forced,
    then 32 hex digits grouped 8-4-4-4-12. *)
Definition format_uuid (bits : N) : string :=
  let n := N.land bits (N.ones 128) in
  let n := N.lor (N.ldiff n (N.shiftl 0xc000 48)) (N.shiftl 0x8000 48) in
  let n := N.lor (N.ldiff n (N.shiftl 0xf000 64)) (N.shiftl 4 76) in
  let z := Z.of_N n in
  zfill 16 8 (z / 2 ^ 96) +:+ "-" +:+ zfill 16 4 (z / 2 ^ 80) +:+ "-" +:+
  zfill 16 4 (z / 2 ^ 64) +:+ "-" +:+ zfill 16 4 (z / 2 ^ 48) +:+ "-" +:+
  zfill 16 12 z.

(** [str(uuid.uuid4())]: draws from the random source, which moves on. *)
Definition uuid4 (h : Host) : string * Host :=
  (format_uuid (entropy h), {| clock := clock h; entropy := N.succ (entropy h) |}).

(** ** The job record *)

Module ScoringJob.

(** The dataclass; fields carry the types of their annotations. *)
Record t : Type := mk {
  id : string;
  business_data : pydict;
  status : string;
  score : option float;
  reasoning : option (list string);
  error : option string;
  created_at : option datetime;
  completed_at : option datetime
}.

Definition set_id (v : string) (self : t) : t :=
  mk v (business_data self) (status self) (score self) (reasoning self) (error self)
     (created_at self) (completed_at self).

Definition set_status (v : string) (self : t) : t :=
  mk (id self) (business_data self) v (score self) (reasoning self) (error self)
     (created_at self) (completed_at self).

Definition set_score (v : option float) (self : t) : t :=
  mk (id self) (business_data self) (status self) v (reasoning self) (error self)
     (created_at self) (completed_at self).

Definition set_reasoning (v : option (list string)) (self : t) : t :=
  mk (id self) (business_data self) (status self) (score self) v (error self)
     (created_at self) (completed_at self).

Definition set_error (v : option string) (self : t) : t :=
  mk (id self) (business_data self) (status self) (score self) (reasoning self) v
     (created_at self) (completed_at self).

Definition set_created_at (v : option datetime) (self : t) : t :=
  mk (id self) (business_data self) (status self) (score self) (reasoning self)
     (error self) v (completed_at self).

Definition set_completed_at (v : option datetime) (self : t) : t :=
  mk (id self) (business_data self) (status self) (score self) (reasoning self)
     (error self) (created_at self) v.

(** [__post_init__]: an empty id is replaced by a fresh uuid, a missing
    creation time by the current time. *)
Definition __post_init__ (self : t) (h : Host) : t * Host :=
  let '(self, h) :=
    if String.eqb (id self) ""
    then let '(u, h) := uuid4 h in (set_id u self, h)
    else (self, h) in
  match created_at self with
  | None => (set_created_at (Some (utcnow h)) self, h)
  | Some _ => (self, h)
  end.

(** The generated [__init__]: stores the arguments and runs
    [__post_init__]. *)
Definition __init__ (id : string) (business_data : pydict) (status : string)
    (score : option float) (reasoning : option (list string)) (error : option string)
    (created_at completed_at : option datetime) (h : Host) : t * Host :=
  __post_init__
    (mk id business_data status score reasoning error created_at completed_at) h.

(** [ScoringJob(id=..., business_data=...)], the other fields at their
    defaults. *)
Definition new (id : string) (business_data : pydict) (h : Host) : t * Host :=
  __init__ id business_data "pending" None None None None None h.

Definition opt_val {A : Type} (f : A → pyval) (o : option A) : pyval :=
  match o with
  | Some a => f a
  | None => VNone
  end.

(** [to_dict]: [asdict(self)] with the two timestamps replaced by their
    ISO strings.  A datetime object is always true, so the two [if]s of
    the method skip exactly the [None] timestamps. *)
Definition to_dict (self : t) : pydict :=
  list_to_map
    [ ("id", VStr (id self));
      ("business_data", VDict (business_data self));
      ("status", VStr (status self));
      ("score", opt_val VFloat (score self));
      ("reasoning", opt_val (λ l, VList (VStr <$> l)) (reasoning self));
      ("error", opt_val VStr (error self));
      ("created_at", opt_val (λ d, VStr (isoformat d)) (created_at self));
      ("completed_at", opt_val (λ d, VStr (isoformat d)) (completed_at self)) ].

Definition field_names : gset string :=
  {[ "id"; "business_data"; "status"; "score"; "reasoning"; "error";
     "created_at"; "completed_at" ]}.

(** The first two statements of [from_dict], for one key: a true value
    is replaced by [fromisoformat(value.replace('Z', '+00:00'))]. *)
Definition timestamp (data : pydict) (key : string) : result (option datetime) :=
  match data !! key with
  | Some v =>
      if truthy v then
        match v with
        | VStr s => d ← fromisoformat (str_replace "Z" "+00:00" s); mret (Some d)
        | _ => Raise (Exception AttributeError
                 ("'" +:+ type_name v +:+ "' object has no attribute 'replace'"))
        end
      else Ok None
  | None => Ok None
  end.

(** The values a field can hold are those of its annotation.  Python
    does not check annotations: a document with a value of another type
    builds an object outside the record [t] there.  The embedding
    reports such a document with this [TypeError] instead. *)
Definition ill_typed {A : Type} (field : string) : result A :=
  Raise (Exception TypeError ("field '" +:+ field +:+ "' is not of its annotated type")).

Definition as_str (field : string) (v : pyval) : result string :=
  match v with VStr s => Ok s | _ => ill_typed field end.

Definition as_dict (field : string) (v : pyval) : result pydict :=
  match v with VDict d => Ok d | _ => ill_typed field end.

Definition as_opt_str (field : string) (v : pyval) : result (option string) :=
  match v with VNone => Ok None | VStr s => Ok (Some s) | _ => ill_typed field end.

Definition as_opt_float (field : string) (v : pyval) : result (option float) :=
  match v with VNone => Ok None | VFloat x => Ok (Some x) | _ => ill_typed field end.

Fixpoint as_str_list (field : string) (l : list pyval) : result (list string) :=
  match l with
  | [] => Ok []
  | v :: rest => s ← as_str field v; ss ← as_str_list field rest; mret (s :: ss)
  end.

Definition as_opt_str_list (field : string) (v : pyval) : result (option (list string)) :=
  match v with
  | VNone => Ok None
  | VList l => ss ← as_str_list field l; mret (Some ss)
  | _ => ill_typed field
  end.

(** A timestamp field that [timestamp] left alone holds [None] or some
    other false value. *)
Definition untouched (field : string) (data : pydict) (parsed : option datetime)
    : result (option datetime) :=
  match parsed with
  | Some d => Ok (Some d)
  | None =>
      match data !! field with
      | None | Some VNone => Ok None
      | Some _ => ill_typed field
      end
  end.

(** [from_dict]: the two timestamps are parsed, then [cls( **data )]
    binds the keys to the parameters of [__init__] (an unknown key or a
    missing [id] or [business_data] is a [TypeError]) and
    [__post_init__] runs.  A false [created_at] that is not [None] (an
    empty string, say) is overwritten by [__post_init__] just as [None]
    is. *)
Definition from_dict (data : pyval) (h : Host) : result t * Host :=
  match data with
  | VDict data =>
      let bound : result t :=
        created ← timestamp data "created_at";
        completed ← timestamp data "completed_at";
        _ ← (if bool_decide (dom data ⊆ field_names) then Ok ()
             else Raise (Exception TypeError
                    "ScoringJob.__init__() got an unexpected keyword argument"));
        id_v ← (match data !! "id" with
                | Some v => Ok v
                | None => Raise (Exception TypeError
                    "ScoringJob.__init__() missing required positional argument: 'id'")
                end);
        bd_v ← (match data !! "business_data" with
                | Some v => Ok v
                | None => Raise (Exception TypeError
                    "ScoringJob.__init__() missing required positional argument: 'business_data'")
                end);
        id ← as_str "id" id_v;
        business_data ← as_dict "business_data" bd_v;
        status ← as_str "status" (default (VStr "pending") (data !! "status"));
        score ← as_opt_float "score" (default VNone (data !! "score"));
        reasoning ← as_opt_str_list "reasoning" (default VNone (data !! "reasoning"));
        error ← as_opt_str "error" (default VNone (data !! "error"));
        completed_at ← untouched "completed_at" data completed;
        mret (mk id business_data status score reasoning error created completed_at) in
      match bound with
      | Ok self => let '(self, h) := __post_init__ self h in (Ok self, h)
      | Raise e => (Raise e, h)
      end
  | _ => (Raise (Exception TypeError
            ("ScoringJob.from_dict: '" +:+ type_name data +:+ "' is not a mapping")), h)
  end.

End ScoringJob.

(** ** The json module *)

(** A value as JSON carries it: what [json.loads] reads from the text
    [json.dumps] wrote.  A tuple is written as an array and comes back
    as a list; every other value comes back as it was (a [NaN] is written
    and read by the module's default settings, and comes back a [NaN],
    which [==] does not hold equal to itself).  Keys are strings here;
    a key of another type, which json writes as a string, is outside the
    embedding. *)
Fixpoint as_json (v : pyval) : pyval :=
  match v with
  | VList l | VTuple l => VList (as_json <$> l)
  | VDict d => VDict (as_json <$> d)
  | _ => v
  end.

(** [json.dumps] and [json.loads], by their contract: the text of a value
    is never empty and reads back as that value as JSON carries it. *)
Class Json : Type := {
  text : Type;
  json_dumps : pyval → text;
  json_loads : text → result pyval;
  text_truthy : text → bool;
  json_loads_dumps : ∀ v, json_loads (json_dumps v) = Ok (as_json v);
  json_dumps_truthy : ∀ v, text_truthy (json_dumps v) = true
}.

(** The codec whose text of a value is the value as JSON carries it. *)
#[local] Instance plain_json : Json := {|
  text := pyval;
  json_dumps := as_json;
  json_loads := λ t, Ok t;
  text_truthy := λ _, true;
  json_loads_dumps := λ v, eq_refl;
  json_dumps_truthy := λ v, eq_refl
|}.

(** What one call of the scoring function comes to: a result, an
    exception, or the death of the process while it runs. *)
Inductive outcome : Type :=
| Returned (sd : score_data)
| Raised (e : exn)
| Killed.

(** How a routine ends: it finishes, normally or with an exception that
    propagates to its caller, or the process died inside it. *)
Inductive completion : Type :=
| Finished (r : result unit)
| Died.

(** [self._score_business], as the worker calls it. *)
Definition run_score_business (business_data : pydict) : outcome :=
  match _score_business business_data with
  | Ok sd => Returned sd
  | Raise e => Raised e
  end.

(** The configuration and state of a [QueuedScorer]. *)
Record QueuedScorer : Type := {
  queue_name : string;
  max_concurrent_jobs : Z;
  job_timeout : Z;
  retry_attempts : Z;
  ai_enabled : bool;
  is_running : bool;
  worker_id : string
}.

Section Queue.

Context `{Json}.

(** ** Redis *)

(** A key holds a string, with the time to live it was written with, or
    a list.  The server is reachable and answers every command as Redis
    does, command errors included; the passing of time, and with it
    expiry, is not part of the model. *)
Inductive redis_value : Type :=
| RString (seconds : Z) (value : text)
| RList (items : list string).

(** The commands sent to Redis and the calls of the scoring function, in
    the order the process makes them. *)
Inductive event : Type :=
| Setex (key : string) (seconds : Z) (value : text)
| Lpush (key : string) (item : string)
| Brpop (key : string) (timeout : Z)
| Get (key : string)
| Scoring (business_data : pydict).

Record World : Type := {
  redis : gmap string redis_value;
  host : Host;
  trace : list event
}.

Definition log (ev : event) (w : World) : World :=
  {| redis := redis w; host := host w; trace := trace w ++ [ev] |}.

Definition set_redis (r : gmap string redis_value) (w : World) : World :=
  {| redis := r; host := host w; trace := trace w |}.

Definition set_host (h : Host) (w : World) : World :=
  {| redis := redis w; host := h; trace := trace w |}.

(** Code that uses the world and may raise. *)
Definition M (A : Type) : Type := World → result A * World.

#[local] Instance M_ret : MRet M := λ A a w, (Ok a, w).
#[local] Instance M_bind : MBind M := λ A B f m w,
  match m w with
  | (Ok a, w') => f a w'
  | (Raise e, w') => (Raise e, w')
  end.

Definition lift_result {A : Type} (r : result A) : M A := λ w, (r, w).

Definition with_host {A : Type} (f : Host → A * Host) : M A := λ w,
  let '(a, h) := f (host w) in (Ok a, set_host h w).

Definition with_host_result {A : Type} (f : Host → result A * Host) : M A := λ w,
  let '(r, h) := f (host w) in (r, set_host h w).

Definition WRONGTYPE : exn :=
  Exception ResponseError
    "WRONGTYPE Operation against a key holding the wrong kind of value".

(** [SETEX key seconds value]: replaces whatever the key held. *)
Definition setex (key : string) (seconds : Z) (value : text) : M unit := λ w,
  let w := log (Setex key seconds value) w in
  if seconds <=? 0
  then (Raise (Exception ResponseError "invalid expire time in 'setex' command"), w)
  else (Ok (), set_redis (<[key := RString seconds value]> (redis w)) w).

(** [LPUSH key item]: inserts at the head; answers the new length. *)
Definition lpush (key item : string) : M Z := λ w,
  let w := log (Lpush key item) w in
  match redis w !! key with
  | None => (Ok 1, set_redis (<[key := RList [item]]> (redis w)) w)
  | Some (RList items) =>
      (Ok (Z.of_nat (length (item :: items))),
       set_redis (<[key := RList (item :: items)]> (redis w)) w)
  | Some (RString _ _) => (Raise WRONGTYPE, w)
  end.

(** The list without its last element, and that element. *)
Fixpoint pop_last (l : list string) : option (list string * string) :=
  match l with
  | [] => None
  | x :: rest =>
      match pop_last rest with
      | None => Some ([], x)
      | Some (init, y) => Some (x :: init, y)
      end
  end.

(** [BRPOP key timeout] with nobody else pushing while it waits: removes
    the tail and answers [(key, item)], or answers nothing when the
    timeout passes on an empty or missing list.  A list that becomes
    empty is deleted. *)
Definition brpop (key : string) (timeout : Z) : M (option (string * string)) := λ w,
  let w := log (Brpop key timeout) w in
  match redis w !! key with
  | None => (Ok None, w)
  | Some (RList items) =>
      match pop_last items with
      | None => (Ok None, w)
      | Some ([], item) => (Ok (Some (key, item)), set_redis (delete key (redis w)) w)
      | Some (init, item) =>
          (Ok (Some (key, item)), set_redis (<[key := RList init]> (redis w)) w)
      end
  | Some (RString _ _) => (Raise WRONGTYPE, w)
  end.

(** [GET key]. *)
Definition get (key : string) : M (option text) := λ w,
  let w := log (Get key) w in
  match redis w !! key with
  | None => (Ok None, w)
  | Some (RString _ value) => (Ok (Some value), w)
  | Some (RList _) => (Raise WRONGTYPE, w)
  end.

(** ** QueuedScorer *)

(** [QueuedScorer._update_job]. *)
Definition _update_job (self : QueuedScorer) (job : ScoringJob.t) : M unit :=
  let job_key := "job:" +:+ ScoringJob.id job in
  setex job_key (job_timeout self * 2) (json_dumps (VDict (ScoringJob.to_dict job))).

(** [QueuedScorer.submit_job]. *)
Definition submit_job (self : QueuedScorer) (business_data : pydict) : M string :=
  u ← with_host uuid4;
  job ← with_host (ScoringJob.new u business_data);
  let job_key := "job:" +:+ ScoringJob.id job in
  _ ← setex job_key (job_timeout self * 2) (json_dumps (VDict (ScoringJob.to_dict job)));
  let queue_key := "queue:" +:+ queue_name self in
  _ ← lpush queue_key (ScoringJob.id job);
  mret (ScoringJob.id job).

(** [QueuedScorer.get_job_status]. *)
Definition get_job_status (self : QueuedScorer) (job_id : string)
    : M (option ScoringJob.t) :=
  let job_key := "job:" +:+ job_id in
  job_data ← get job_key;
  match job_data with
  | Some t =>
      if text_truthy t then
        data ← lift_result (json_loads t);
        job ← with_host_result (ScoringJob.from_dict data);
        mret (Some job)
      else mret None
  | None => mret None
  end.

(** [QueuedScorer.batch_submit]. *)
Fixpoint batch_submit (self : QueuedScorer) (businesses : list pydict)
    : M (list string) :=
  match businesses with
  | [] => mret []
  | business :: rest =>
      job_id ← submit_job self business;
      job_ids ← batch_submit self rest;
      mret (job_id :: job_ids)
  end.

Section Worker.

(** The scoring function the worker calls; the class binds it to
    [run_score_business]. *)
Variable scorer : pydict → outcome.

(** [QueuedScorer._process_job].  The job object is mutated in place:
    the routine answers with the object as it leaves it.  The body of
    the [try] ends at the first exception; [except Exception] turns it
    into the failed state; [finally] writes the job, and an exception
    of that write is the one thing that leaves the routine. *)
Definition _process_job (self : QueuedScorer) (job : ScoringJob.t) (w : World)
    : completion * ScoringJob.t * World :=
  let job := ScoringJob.set_status "processing" job in
  match _update_job self job w with
  | (Raise e, w) =>
      let job := ScoringJob.set_status "failed" job in
      let job := ScoringJob.set_error (Some (message e)) job in
      let job := ScoringJob.set_completed_at (Some (utcnow (host w))) job in
      let '(r, w) := _update_job self job w in
      (Finished r, job, w)
  | (Ok _, w) =>
      let w := log (Scoring (ScoringJob.business_data job)) w in
      match scorer (ScoringJob.business_data job) with
      | Killed => (Died, job, w)
      | Returned score_data =>
          let job := ScoringJob.set_score (Some (sd_score score_data)) job in
          let job := ScoringJob.set_reasoning (Some (sd_reasoning score_data)) job in
          let job := ScoringJob.set_status "completed" job in
          let job := ScoringJob.set_completed_at (Some (utcnow (host w))) job in
          let '(r, w) := _update_job self job w in
          (Finished r, job, w)
      | Raised e =>
          let job := ScoringJob.set_status "failed" job in
          let job := ScoringJob.set_error (Some (message e)) job in
          let job := ScoringJob.set_completed_at (Some (utcnow (host w))) job in
          let '(r, w) := _update_job self job w in
          (Finished r, job, w)
      end
  end.

(** One turn of the [while] loop of [QueuedScorer.start_worker]:
    [true] when the loop goes on to test [is_running] again, [false]
    when the process died.  Every exception of the turn is caught by
    the loop's [except Exception], logged and slept on. *)
Definition worker_iteration (self : QueuedScorer) (w : World) : bool * World :=
  let queue_key := "queue:" +:+ queue_name self in
  match brpop queue_key 1 w with
  | (Raise _, w) => (true, w)
  | (Ok None, w) => (true, w)
  | (Ok (Some (_, job_id)), w) =>
      match get_job_status self job_id w with
      | (Raise _, w) => (true, w)
      | (Ok None, w) => (true, w)
      | (Ok (Some job), w) =>
          match _process_job self job w with
          | (Died, _, w) => (false, w)
          | (Finished _, _, w) => (true, w)
          end
      end
  end.

(** [start_worker] for at most [turns] turns of its loop ([is_running]
    is set on entry and only [stop_worker] clears it). *)
Fixpoint start_worker (turns : nat) (self : QueuedScorer) (w : World) : bool * World :=
  match turns with
  | O => (true, w)
  | S turns' =>
      match worker_iteration self w with
      | (true, w) => start_worker turns' self w
      | (false, w) => (false, w)
      end
  end.

End Worker.

(** A schedule of producer and consumer steps on one queue key: the
    [lpush] of [submit_job] and the [brpop] of [start_worker]. *)
Inductive queue_op : Type :=
| Enqueue (job_id : string)
| Dequeue.


(** Runs a schedule; answers the ids the consumer received, in order. *)
Fixpoint run_queue (queue_key : string) (ops : list queue_op) (w : World)
    : list string * World :=
  match ops with
  | [] => ([], w)
  | Enqueue job_id :: rest => run_queue queue_key rest (lpush queue_key job_id w).2
  | Dequeue :: rest =>
      match brpop queue_key 1 w with
      | (Ok (Some (_, job_id)), w) =>
          let '(out, w) := run_queue queue_key rest w in (job_id :: out, w)
      | (_, w) => run_queue queue_key rest w
      end
  end.

End Queue.

(** ** Queue statistics *)

(** The dictionary [get_queue_stats] builds; its five keys are fixed. *)
Record QueueStats : Type := {
  pending_jobs : Z;
  total_jobs : Z;
  completed_jobs : Z;
  failed_jobs : Z;
  processing_jobs : Z
}.

Section Stats.

Context `{Json}.

(** [get_queue_stats] sends reading commands only ([LLEN], [KEYS],
    [GET]); they are embedded by their answers on the key space. *)

(** [LLEN key]: a missing key counts as an empty list. *)
Definition llen (key : string) (r : gmap string redis_value) : result Z :=
  match r !! key with
  | None => Ok 0
  | Some (RList items) => Ok (Z.of_nat (length items))
  | Some (RString _ _) => Raise WRONGTYPE
  end.

(** [KEYS job:*]: the keys that start with [job:].  Redis answers them
    in no particular order; the embedding takes the order of the map. *)
Definition keys_job (r : gmap string redis_value) : list string :=
  List.filter (String.prefix "job:") (map_to_list r).*1.

(** The answer of [GET key]. *)
Definition get_answer (key : string) (r : gmap string redis_value)
    : result (option text) :=
  match r !! key with
  | None => Ok None
  | Some (RString _ value) => Ok (Some value)
  | Some (RList _) => Raise WRONGTYPE
  end.

(** [json.loads(self.redis_client.get(job_key)).get('status', 'unknown')]:
    the first two statements of the loop body.  [json.loads(None)] is a
    [TypeError]; a document that is not an object has no [get]. *)
Definition job_status (r : gmap string redis_value) (job_key : string) : result pyval :=
  answer ← get_answer job_key r;
  job_data ← match answer with
             | Some t => json_loads t
             | None => Raise (Exception TypeError
                 "the JSON object must be str, bytes or bytearray, not NoneType")
             end;
  match job_data with
  | VDict d => Ok (dict_get d "status" (VStr "unknown"))
  | v => Raise (Exception AttributeError
           ("'" +:+ type_name v +:+ "' object has no attribute 'get'"))
  end.

(** [status == s] for a string literal [s]. *)
Definition eq_str (status : pyval) (s : string) : bool :=
  match status with
  | VStr s' => String.eqb s' s
  | _ => false
  end.

(** The [if]/[elif] chain of the loop body. *)
Definition tally (status : pyval) (stats : QueueStats) : QueueStats :=
  if eq_str status "completed" then
    {| pending_jobs := pending_jobs stats; total_jobs := total_jobs stats;
       completed_jobs := completed_jobs stats + 1; failed_jobs := failed_jobs stats;
       processing_jobs := processing_jobs stats |}
  else if eq_str status "failed" then
    {| pending_jobs := pending_jobs stats; total_jobs := total_jobs stats;
       completed_jobs := completed_jobs stats; failed_jobs := failed_jobs stats + 1;
       processing_jobs := processing_jobs stats |}
  else if eq_str status "processing" then
    {| pending_jobs := pending_jobs stats; total_jobs := total_jobs stats;
       completed_jobs := completed_jobs stats; failed_jobs := failed_jobs stats;
       processing_jobs := processing_jobs stats + 1 |}
  else stats.

(** The [for] loop over the job keys; an exception ends it. *)
Fixpoint count_jobs (r : gmap string redis_value) (job_keys : list string)
    (stats : QueueStats) : result QueueStats :=
  match job_keys with
  | [] => Ok stats
  | job_key :: rest =>
      status ← job_status r job_key;
      count_jobs r rest (tally status stats)
  end.

(** [QueuedScorer.get_queue_stats]. *)
Definition get_queue_stats (self : QueuedScorer) (r : gmap string redis_value)
    : result QueueStats :=
  let queue_key := "queue:" +:+ queue_name self in
  pending_count ← llen queue_key r;
  let job_keys := keys_job r in
  let stats :=
    {| pending_jobs := pending_count;
       total_jobs := Z.of_nat (length job_keys);
       completed_jobs := 0;
       failed_jobs := 0;
       processing_jobs := 0 |} in
  count_jobs r job_keys stats.

End Stats.

(** ** Vocabulary of the statements *)

(** The sub-scores and the score of one business: what the four scoring
    methods answer on the fields [_score_business] reads, and the score it
    returns, which is their weighted sum rounded to two decimals. *)
Definition scores_of (business_data : pydict) (revenue_score growth_score : Z)
    (market_score : float) (experience_score : Z) (score : float) : Prop :=
  _score_revenue (dict_get business_data "monthly_revenue" (VInt 0))
                 (dict_get business_data "monthly_profit" (VInt 0)) = Ok revenue_score ∧
  _score_growth (dict_get business_data "growth_rate" (VInt 0)) = Ok growth_score ∧
  _score_market (dict_get business_data "market_size" (VInt 0))
                (dict_get business_data "industry" (VStr "General")) = Ok market_score ∧
  _score_experience (dict_get business_data "years_operated" (VInt 0)) = Ok experience_score ∧
  (∃ reasoning, _score_business business_data = Ok (ScoreData score reasoning)) ∧
  score = py_round (overall_score revenue_score growth_score market_score experience_score) 2.

Definition revenue_scores : list Z := [20; 40; 60; 80; 95].
Definition growth_scores : list Z := [10; 30; 60; 80; 95].
Definition experience_scores : list Z := [30; 50; 70; 85].
Definition multipliers : list float := [1.2; 1.1; 1.15; 1.0; 0.9]%float.
Definition market_scores : list float :=
  m ← multipliers; b ← [30; 50; 70; 90]; [(float_of_int b * m)%float].

(** [21.25 <= x <= 96.25]. *)
Definition in_bounds (x : float) : bool := (21.25 <=? x)%float && (x <=? 96.25)%float.

(** The poorest and the best business the thresholds know. *)
Definition poorest_business : pydict :=
  list_to_map [ ("growth_rate", VInt (-1)); ("industry", VStr "Service") ].

Definition best_business : pydict :=
  list_to_map
    [ ("monthly_revenue", VInt 50000);
      ("growth_rate", VInt 30);
      ("market_size", VInt 10000000);
      ("industry", VStr "SaaS");
      ("years_operated", VInt 5) ].

(** What [__post_init__] establishes, and no method of the module undoes:
    the id is not empty and the creation time is set. *)
Definition constructed (job : ScoringJob.t) : Prop :=
  ScoringJob.id job ≠ "" ∧ is_Some (ScoringJob.created_at job).

(** The timestamps of the job are datetime objects: their fields are in
    range. *)
Definition timestamps_ok (job : ScoringJob.t) : Prop :=
  (∀ d, ScoringJob.created_at job = Some d → datetime_ok d = true) ∧
  (∀ d, ScoringJob.completed_at job = Some d → datetime_ok d = true).

(** A host, for the examples. *)
Definition leap_day_host : Host :=
  {| clock := Datetime 2024 2 29 13 5 9 17 None; entropy := 12345678901234567890123456789 |}.


(** A job as [submit_job] builds it, then completed. *)
Definition completed_job : ScoringJob.t :=
  ScoringJob.mk "job-1" saas_company_a "completed" (Some 85%float)
    (Some (_generate_reasoning 80 80 108 70 saas_company_a)) None
    (Some (Datetime 2024 2 29 13 5 9 17 None))
    (Some (Datetime 2024 2 29 13 5 10 0 (Some 0))).

(** The values [<] accepts against an [int] literal. *)
Definition is_number (v : pyval) : bool :=
  match v with
  | VInt _ | VFloat _ | VBool _ => true
  | _ => false
  end.

(** The values a dict accepts as a key. *)
Definition hashable (v : pyval) : bool :=
  match unhashable v with
  | None => true
  | Some _ => false
  end.

(** The number of constructors of a value. *)
Fixpoint weight (v : pyval) : nat :=
  match v with
  | VList l | VTuple l => S (foldr (λ x n, weight x + n)%nat 0%nat l)
  | VDict d => S (map_fold (λ _ x n, weight x + n)%nat 0%nat d)
  | _ => 1%nat
  end.

(** The value is made of the types JSON has and [==] holds it equal to
    itself: it holds no tuple and no [NaN]. *)
Fixpoint json_exact (v : pyval) : bool :=
  match v with
  | VTuple _ => false
  | VFloat x => negb (PrimFloat.is_nan x)
  | VList l => forallb json_exact l
  | VDict d => map_fold (λ _ x b, json_exact x && b) true d
  | _ => true
  end.

(** The job as it is read back from its record: its business data as
    JSON carries them. *)
Definition as_loaded (job : ScoringJob.t) : ScoringJob.t :=
  ScoringJob.mk (ScoringJob.id job) (as_json <$> ScoringJob.business_data job)
    (ScoringJob.status job) (ScoringJob.score job) (ScoringJob.reasoning job)
    (ScoringJob.error job) (ScoringJob.created_at job) (ScoringJob.completed_at job).

(** A payload with a tuple. *)
Definition tagged_business : pydict :=
  list_to_map [ ("name", VStr "Tagged"); ("tags", VTuple [VStr "a"; VStr "b"]) ].

Section QueueVocabulary.

Context `{Json}.

(** The ids waiting under a queue key, newest first. *)
Definition queue_items (key : string) (w : World) : list string :=
  match redis w !! key with
  | Some (RList items) => items
  | _ => []
  end.

(** Every [SETEX] among the events carries the time to live [ttl]. *)
Definition writes_with_ttl (ttl : Z) (events : list event) : Prop :=
  Forall (λ ev, match ev with Setex _ seconds _ => seconds = ttl | _ => True end) events.

(** From [w] to [w'] the process issued further commands, and every
    [SETEX] among them carries the time to live [ttl]. *)
Definition writes_only (ttl : Z) (w w' : World) : Prop :=
  ∃ events, trace w' = trace w ++ events ∧ writes_with_ttl ttl events.

(** The job is in the store, as [_update_job] writes it. *)
Definition stored (self : QueuedScorer) (job : ScoringJob.t) (w : World) : Prop :=
  redis w !! ("job:" +:+ ScoringJob.id job) =
  Some (RString (job_timeout self * 2) (json_dumps (VDict (ScoringJob.to_dict job)))).

(** The result fields of the job are unset, as [submit_job] leaves them. *)
Definition results_unset (job : ScoringJob.t) : Prop :=
  ScoringJob.score job = None ∧ ScoringJob.reasoning job = None ∧
  ScoringJob.error job = None.

End QueueVocabulary.

(** The configuration [__init__] reads from an empty environment. *)
Definition default_scorer : QueuedScorer :=
  {| queue_name := "business_scoring";
     max_concurrent_jobs := 5;
     job_timeout := 300;
     retry_attempts := 3;
     ai_enabled := false;
     is_running := false;
     worker_id := "00000000-0000-4000-8000-000000000000" |}.

(** A world with an empty Redis. *)
Definition empty_world : @World plain_json :=
  {| redis := ∅; host := leap_day_host; trace := [] |}.

(** A business whose revenue is not a number. *)
Definition bad_business : pydict :=
  list_to_map [ ("monthly_revenue", VStr "a lot") ].

Definition pending_job (business_data : pydict) : ScoringJob.t :=
  ScoringJob.mk "job-1" business_data "pending" None None None
    (Some (Datetime 2024 2 29 13 5 9 17 None)) None.

(** The job as the [try] body of [_process_job] leaves it on success, and
    as the [except] clause leaves it on an exception. *)
Definition completed_with (score_data : score_data) (now : datetime) (job : ScoringJob.t)
    : ScoringJob.t :=
  ScoringJob.set_completed_at (Some now)
    (ScoringJob.set_status "completed"
       (ScoringJob.set_reasoning (Some (sd_reasoning score_data))
          (ScoringJob.set_score (Some (sd_score score_data)) job))).

Definition failed_with (e : exn) (now : datetime) (job : ScoringJob.t) : ScoringJob.t :=
  ScoringJob.set_completed_at (Some now)
    (ScoringJob.set_error (Some (message e))
       (ScoringJob.set_status "failed" job)).

(** One score, for the examples. *)
Definition some_score : score_data := ScoreData 85 ["fine"].

(** A scorer whose [JOB_TIMEOUT_SECONDS] was set to zero. *)
Definition zero_timeout_scorer : QueuedScorer :=
  {| queue_name := "business_scoring";
     max_concurrent_jobs := 5;
     job_timeout := 0;
     retry_attempts := 3;
     ai_enabled := false;
     is_running := false;
     worker_id := "00000000-0000-4000-8000-000000000000" |}.

(** A world whose queue key was taken by a string. *)
Definition clobbered_world : @World plain_json :=
  {| redis := {[ "queue:business_scoring" := RString 60 (VStr "oops") ]};
     host := leap_day_host;
     trace := [] |}.

(** The two sample businesses of the module's [__main__] block. *)
Definition ecommerce_business_b : pydict :=
  list_to_map
    [ ("monthly_revenue", VInt 15000);
      ("monthly_profit", VInt 8000);
      ("growth_rate", VInt 15);
      ("market_size", VInt 30000000);
      ("industry", VStr "E-commerce");
      ("years_operated", VInt 2) ].

Definition sample_businesses : list pydict := [saas_company_a; ecommerce_business_b].

(** The ids [batch_submit] gives the samples on [leap_day_host]. *)
Definition sample_ids : list string :=
  [ "00000000-27e4-4b32-86be-c9b16e398115"; "00000000-27e4-4b32-86be-c9b16e398116" ].

(** A world whose queue holds an id that has no record. *)
Definition orphan_world : @World plain_json :=
  {| redis := {[ "queue:business_scoring" := RList ["ghost"] ]};
     host := leap_day_host;
     trace := [] |}.

(** The fields [_score_business] reads. *)
Definition scored_fields : list string :=
  ["monthly_revenue"; "growth_rate"; "market_size"; "industry"; "years_operated"].

(** The numeric fields among them. *)
Definition numeric_fields : list string :=
  ["monthly_revenue"; "growth_rate"; "market_size"; "years_operated"].

(** The score [_score_business] returns for four sub-scores. *)
Definition score_of (r g : Z) (m : float) (e : Z) : float := py_round (overall_score r g m e) 2.

Section StatsVocabulary.

Context `{Json}.

(** The status a job key counts with; a record that cannot be read
    counts with none. *)
Definition counts_as (r : gmap string redis_value) (s : string) (job_key : string) : bool :=
  match job_status r job_key with
  | Ok status => eq_str status s
  | Raise _ => false
  end.

(** The job keys of the store whose record has the given status. *)
Definition with_status (s : string) (r : gmap string redis_value) : list string :=
  List.filter (counts_as r s) (keys_job r).

(** The store [r'] holds the records of [r] and the record of one more
    job. *)
Definition one_more_record (r r' : gmap string redis_value) (job : ScoringJob.t) : Prop :=
  r !! ("job:" +:+ ScoringJob.id job) = None ∧
  (∃ seconds, r' !! ("job:" +:+ ScoringJob.id job) =
     Some (RString seconds (json_dumps (VDict (ScoringJob.to_dict job))))) ∧
  ∀ job_key, String.prefix "job:" job_key = true →
             job_key ≠ "job:" +:+ ScoringJob.id job → r' !! job_key = r !! job_key.

(** The statistics with one job more under one of the counters. *)
Definition one_more (status : string) (pending_count : Z) (stats : QueueStats)
    : QueueStats :=
  {| pending_jobs := pending_count;
     total_jobs := total_jobs stats + 1;
     completed_jobs := completed_jobs stats + (if String.eqb status "completed" then 1 else 0);
     failed_jobs := failed_jobs stats + (if String.eqb status "failed" then 1 else 0);
     processing_jobs :=
       processing_jobs stats + (if String.eqb status "processing" then 1 else 0) |}.

End StatsVocabulary.

(** The store after one business was submitted and scored. *)
Definition scored_world : @World plain_json :=
  (worker_iteration run_score_business default_scorer
     (submit_job default_scorer saas_company_a empty_world).2).2.

(** The document of a job that carries its required fields only. *)
Definition minimal_document (id : string) (business_data : pydict) : pydict :=
  list_to_map [ ("id", VStr id); ("business_data", VDict business_data) ].

(** The same wall time, aware, at UTC. *)
Definition at_utc (d : datetime) : datetime :=
  Datetime (year d) (month d) (day d) (hour d) (minute d) (second d) (microsecond d)
    (Some 0).

(** The document of the job with its creation time written in the [Z]
    spelling of UTC. *)
Definition zulu_document (job : ScoringJob.t) (d : datetime) : pydict :=
  <["created_at" := VStr (isoformat d +:+ "Z")]> (ScoringJob.to_dict job).

(** A document with a key that is no field of the job. *)
Definition document_with_priority : pydict :=
  <["priority" := VInt 1]> (ScoringJob.to_dict completed_job).

Section DrainVocabulary.

Context `{Json}.

Variable scorer : pydict → outcome.



End DrainVocabulary.



(** * Properties *)

(** ** The scorer *)

Lemma bind_Ok {A B : Type} (m : result A) (f : A → result B) (b : B) :
  m ≫= f = Ok b → ∃ a, m = Ok a ∧ f a = Ok b.
Proof. destruct m as [a|e]; [eauto | discriminate]. Qed.

(** Splits [m ≫= f = Ok b] hypotheses and the [if]s under them. *)
Ltac invert_Ok :=
  repeat match goal with
  | H : mbind _ _ = Ok _ |- _ =>
      let a := fresh "b" in
      let Ha := fresh "Hb" in
      apply bind_Ok in H; destruct H as (a & Ha & H)
  | H : (if ?c then _ else _) = Ok _ |- _ => destruct c
  | H : mret _ = Ok _ |- _ => injection H as <-
  | H : Ok _ = Ok _ |- _ => injection H as <-
  end.

Lemma _score_revenue_range revenue profit s :
  _score_revenue revenue profit = Ok s → In s revenue_scores.
Proof. unfold _score_revenue, revenue_scores. intros Hs. invert_Ok; simpl; tauto. Qed.

Lemma _score_growth_range growth_rate s :
  _score_growth growth_rate = Ok s → In s growth_scores.
Proof. unfold _score_growth, growth_scores. intros Hs. invert_Ok; simpl; tauto. Qed.

Lemma _score_experience_range years s :
  _score_experience years = Ok s → In s experience_scores.
Proof. unfold _score_experience, experience_scores. intros Hs. invert_Ok; simpl; tauto. Qed.

Lemma multiplier_get_range industry m :
  multiplier_get industry = Ok m → In m multipliers.
Proof.
  unfold multiplier_get, multipliers.
  destruct industry as [| | | |s| |l|]; try discriminate;
    try (intros [= <-]; simpl; tauto);
    try (destruct (unhashable (VTuple l)); [discriminate | intros [= <-]; simpl; tauto]).
  intros [= <-]. destruct (industry_multipliers !! s) as [m|] eqn:Hm; simpl; [|tauto].
  apply elem_of_list_to_map_2 in Hm. rewrite list_elem_of_In in Hm.
  simpl in Hm.
  repeat (destruct Hm as [[= _ <-] | Hm]; [tauto|]). destruct Hm.
Qed.

Lemma _score_market_range market_size industry s :
  _score_market market_size industry = Ok s → In s market_scores.
Proof.
  unfold _score_market. intros Hs.
  apply bind_Ok in Hs as (m & Hm & Hs). apply multiplier_get_range in Hm.
  unfold multipliers in Hm. simpl in Hm.
  assert (Hb : ∀ b, In b [30; 50; 70; 90] → In (float_of_int b * m)%float market_scores).
  { intros b Hb. unfold market_scores, multipliers.
    rewrite <- list_elem_of_In. apply list_elem_of_bind. exists m. split.
    - apply list_elem_of_bind. exists b. split; [apply list_elem_of_singleton; done|].
      by apply list_elem_of_In.
    - apply list_elem_of_In. simpl. tauto. }
  invert_Ok; apply Hb; simpl; tauto.
Qed.

Lemma all_scores_in_bounds :
  forallb (λ r, forallb (λ g, forallb (λ m, forallb (λ e,
    in_bounds (py_round (overall_score r g m e) 2))
    experience_scores) market_scores) growth_scores) revenue_scores = true.
Proof. vm_compute. reflexivity. Qed.

Lemma _score_business_inv business_data sd :
  _score_business business_data = Ok sd →
  ∃ r g m e,
    scores_of business_data r g m e (sd_score sd) ∧
    sd_reasoning sd = _generate_reasoning r g m e business_data.
Proof.
  intros Hsd. pose proof Hsd as Hrun. unfold _score_business in Hsd.
  apply bind_Ok in Hsd as (r & Hr & Hsd). apply bind_Ok in Hsd as (g & Hg & Hsd).
  apply bind_Ok in Hsd as (m & Hm & Hsd). apply bind_Ok in Hsd as (e & He & Hsd).
  injection Hsd as <-. exists r, g, m, e. simpl. split; [|done].
  repeat split; try assumption. eexists. exact Hrun.
Qed.

(** C9: whenever [_score_business] returns, the score lies between 21.25
    and 96.25, both included; both ends are reached, by the poorest and
    by the best business. *)
Theorem score_between_21_25_and_96_25 :
  (∀ business_data sd,
     _score_business business_data = Ok sd →
     (21.25 <=? sd_score sd)%float = true ∧ (sd_score sd <=? 96.25)%float = true) ∧
  (∃ reasoning, _score_business poorest_business = Ok (ScoreData 21.25 reasoning)) ∧
  (∃ reasoning, _score_business best_business = Ok (ScoreData 96.25 reasoning)).
Proof.
  split; [|split; eexists; vm_compute; reflexivity].
  intros business_data sd Hsd.
  apply _score_business_inv in Hsd as (r & g & m & e & (Hr & Hg & Hm & He & _ & ->) & _).
  apply _score_revenue_range in Hr. apply _score_growth_range in Hg.
  apply _score_market_range in Hm. apply _score_experience_range in He.
  pose proof all_scores_in_bounds as Hall.
  rewrite forallb_forall in Hall. specialize (Hall r Hr).
  rewrite forallb_forall in Hall. specialize (Hall g Hg).
  rewrite forallb_forall in Hall. specialize (Hall m Hm).
  rewrite forallb_forall in Hall. specialize (Hall e He).
  unfold in_bounds in Hall. apply andb_prop in Hall. exact Hall.
Qed.

Lemma score_between_21_25_and_96_25_witness :
  (21.25 <=? 85)%float = true ∧ (85 <=? 96.25)%float = true.
Proof.
  apply (proj1 score_between_21_25_and_96_25 saas_company_a
           (ScoreData 85 (_generate_reasoning 80 80 108 70 saas_company_a))).
  vm_compute. reflexivity.
Defined.

(** The scenario of the module's first sample business, as the code
    computes it. *)
Lemma saas_company_a_growth :
  _score_growth (dict_get saas_company_a "growth_rate" (VInt 0)) = Ok 80.
Proof. vm_compute. reflexivity. Qed.

Lemma saas_company_a_market :
  _score_market (dict_get saas_company_a "market_size" (VInt 0))
                (dict_get saas_company_a "industry" (VStr "General")) = Ok 108%float.
Proof. vm_compute. reflexivity. Qed.

(** C8, as stated: growth_score 95 and market_score 90 are not what the
    code computes for the sample business. *)
Lemma saas_company_a_not_80_95_90_70 :
  ¬ ∃ score, scores_of saas_company_a 80 95 90 70 score.
Proof.
  intros (score & _ & Hg & _). rewrite saas_company_a_growth in Hg. discriminate.
Qed.

(** C8, amended: revenue_score 80, growth_score 80 (25 is below 30),
    market_score 108 (90 times the SaaS multiplier 1.2), experience_score
    70, and the score is their weighted sum rounded to two decimals, 85.0. *)
Theorem saas_company_a_scores : scores_of saas_company_a 80 80 108 70 85.
Proof.
  unfold scores_of. repeat split; try (vm_compute; reflexivity).
  eexists. vm_compute. reflexivity.
Qed.

(** C10: whenever [_score_business] returns, the reasoning holds exactly
    four strings: the sentence of the revenue sub-score, then those of the
    growth, market and experience sub-scores. *)
Theorem reasoning_has_four_sentences business_data sd :
  _score_business business_data = Ok sd →
  length (sd_reasoning sd) = 4%nat ∧
  ∃ r g m e score,
    scores_of business_data r g m e score ∧
    sd_reasoning sd =
      [revenue_sentence r; growth_sentence g; market_sentence m; experience_sentence e].
Proof.
  intros Hsd. apply _score_business_inv in Hsd as (r & g & m & e & Hscores & ->).
  split; [reflexivity|]. exists r, g, m, e, (sd_score sd). split; [exact Hscores | reflexivity].
Qed.

Lemma reasoning_has_four_sentences_witness :
  length (_generate_reasoning 80 80 108 70 saas_company_a) = 4%nat ∧
  ∃ r g m e score,
    scores_of saas_company_a r g m e score ∧
    _generate_reasoning 80 80 108 70 saas_company_a =
      [revenue_sentence r; growth_sentence g; market_sentence m; experience_sentence e].
Proof.
  apply (reasoning_has_four_sentences saas_company_a
           (ScoreData 85 (_generate_reasoning 80 80 108 70 saas_company_a))).
  vm_compute. reflexivity.
Defined.

Lemma lt_int_number v n : is_number v = true → ∃ b, lt_int v n = Ok b.
Proof. destruct v; try discriminate; intros _; eexists; reflexivity. Qed.

(** [_score_business] returns on every business whose numeric fields,
    where present, are numbers and whose industry can be hashed. *)
Lemma _score_business_returns business_data :
  is_number (dict_get business_data "monthly_revenue" (VInt 0)) = true →
  is_number (dict_get business_data "growth_rate" (VInt 0)) = true →
  is_number (dict_get business_data "market_size" (VInt 0)) = true →
  is_number (dict_get business_data "years_operated" (VInt 0)) = true →
  hashable (dict_get business_data "industry" (VStr "General")) = true →
  ∃ sd, _score_business business_data = Ok sd.
Proof.
  intros Hrevenue Hgrowth Hmarket Hyears Hindustry. unfold _score_business.
  assert (Hr : ∃ r, _score_revenue (dict_get business_data "monthly_revenue" (VInt 0))
                      (dict_get business_data "monthly_profit" (VInt 0)) = Ok r).
  { unfold _score_revenue.
    repeat (match goal with |- context [lt_int ?v ?n] =>
              destruct (lt_int_number v n Hrevenue) as [[] ->] end;
            cbn [mbind result_bind]; try by eexists). }
  assert (Hg : ∃ g, _score_growth (dict_get business_data "growth_rate" (VInt 0)) = Ok g).
  { unfold _score_growth.
    repeat (match goal with |- context [lt_int ?v ?n] =>
              destruct (lt_int_number v n Hgrowth) as [[] ->] end;
            cbn [mbind result_bind]; try by eexists). }
  assert (Hm : ∃ m, _score_market (dict_get business_data "market_size" (VInt 0))
                      (dict_get business_data "industry" (VStr "General")) = Ok m).
  { unfold _score_market.
    assert (Hmul : ∃ mul, multiplier_get (dict_get business_data "industry" (VStr "General"))
                          = Ok mul).
    { unfold hashable in Hindustry. unfold multiplier_get.
      destruct (dict_get business_data "industry" _) as [| | | |s|l|l|d];
        try discriminate; try (eexists; reflexivity).
      destruct (unhashable (VTuple l)); [discriminate | eexists; reflexivity]. }
    destruct Hmul as [mul ->]. cbn [mbind result_bind].
    repeat (match goal with |- context [lt_int ?v ?n] =>
              destruct (lt_int_number v n Hmarket) as [[] ->] end;
            cbn [mbind result_bind]; try by eexists). }
  assert (He : ∃ e, _score_experience (dict_get business_data "years_operated" (VInt 0))
                    = Ok e).
  { unfold _score_experience.
    repeat (match goal with |- context [lt_int ?v ?n] =>
              destruct (lt_int_number v n Hyears) as [[] ->] end;
            cbn [mbind result_bind]; try by eexists). }
  destruct Hr as [r ->], Hg as [g ->], Hm as [m ->], He as [e ->].
  cbn [mbind result_bind]. by eexists.
Qed.

(** ** Timestamps *)

Lemma digit_val_digit_char d : 0 ≤ d < 10 → digit_val (digit_char d) = Some d.
Proof.
  intros Hd.
  assert (Hcases : d = 0 ∨ d = 1 ∨ d = 2 ∨ d = 3 ∨ d = 4 ∨ d = 5 ∨ d = 6 ∨ d = 7 ∨
                   d = 8 ∨ d = 9) by lia.
  repeat (destruct Hcases as [-> | Hcases]; [reflexivity|]). subst d. reflexivity.
Qed.

Lemma digit_char_not c d :
  0 ≤ d < 10 → (nat_of_ascii c < 48 ∨ 57 < nat_of_ascii c)%nat → Ascii.eqb (digit_char d) c = false.
Proof.
  intros Hd Hc. apply Ascii.eqb_neq. intros <-.
  assert (Hcases : d = 0 ∨ d = 1 ∨ d = 2 ∨ d = 3 ∨ d = 4 ∨ d = 5 ∨ d = 6 ∨ d = 7 ∨
                   d = 8 ∨ d = 9) by lia.
  repeat (destruct Hcases as [-> | Hcases]; [vm_compute in Hc; lia|]).
  subst d. vm_compute in Hc. lia.
Qed.

Lemma append_String c s rest : String c s +:+ rest = String c (s +:+ rest).
Proof. reflexivity. Qed.

Lemma append_empty rest : "" +:+ rest = rest.
Proof. reflexivity. Qed.

Lemma append_assoc (s1 s2 s3 : string) : (s1 +:+ s2) +:+ s3 = s1 +:+ s2 +:+ s3.
Proof.
  induction s1 as [|c s1 IH]; [reflexivity|]. rewrite !append_String. by rewrite IH.
Qed.

Lemma read_digits_zfill k n acc rest :
  read_digits k acc (zfill 10 k n +:+ rest) = Some (acc * 10 ^ Z.of_nat k + n mod 10 ^ Z.of_nat k, rest).
Proof.
  revert acc. induction k as [|k IH]; intros acc.
  - simpl. rewrite Z.mod_1_r. do 2 f_equal. lia.
  - cbn [zfill]. rewrite append_String. cbn [read_digits].
    rewrite digit_val_digit_char by (apply Z.mod_pos_bound; lia).
    rewrite IH. do 2 f_equal.
    rewrite Nat2Z.inj_succ, Z.pow_succ_r by lia.
    rewrite (Z.mul_comm 10), Z.rem_mul_r by lia. lia.
Qed.

Lemma read_digits_zfill_0 k n rest :
  0 ≤ n < 10 ^ Z.of_nat k →
  read_digits k 0 (zfill 10 k n +:+ rest) = Some (n, rest).
Proof. intros Hn. rewrite read_digits_zfill, Z.mod_small by lia. do 2 f_equal. Qed.

Lemma read_digits_zfill_end k n :
  0 ≤ n < 10 ^ Z.of_nat k → read_digits k 0 (zfill 10 k n) = Some (n, "").
Proof.
  intros Hn. rewrite <- (read_digits_zfill_0 k n "") by done. f_equal.
  generalize (zfill 10 k n). intros s. induction s as [|c s IH]; [reflexivity|].
  by rewrite append_String, <- IH.
Qed.

Lemma str_replace_app old new s1 s2 :
  str_replace old new (s1 +:+ s2) = str_replace old new s1 +:+ str_replace old new s2.
Proof.
  induction s1 as [|c s1 IH]; [reflexivity|]. rewrite append_String. simpl.
  destruct (Ascii.eqb c old); rewrite IH; [|by rewrite append_String].
  symmetry. apply append_assoc.
Qed.

Lemma str_replace_zfill c new k n :
  (nat_of_ascii c < 48 ∨ 57 < nat_of_ascii c)%nat →
  str_replace c new (zfill 10 k n) = zfill 10 k n.
Proof.
  intros Hc. induction k as [|k IH]; [reflexivity|]. simpl.
  rewrite digit_char_not by (auto; apply Z.mod_pos_bound; lia). by rewrite IH.
Qed.

Lemma str_replace_Z_isoformat d :
  str_replace "Z" "+00:00" (isoformat d) = isoformat d.
Proof.
  assert (HZ : (nat_of_ascii "Z" < 48 ∨ 57 < nat_of_ascii "Z")%nat) by (vm_compute; lia).
  unfold isoformat, format_offset.
  destruct (microsecond d =? 0); destruct (utcoffset d) as [off|];
    try destruct (off <? 0);
    repeat (rewrite str_replace_app, ?str_replace_zfill by exact HZ); reflexivity.
Qed.

Lemma days_in_month_le y m : days_in_month y m ≤ 31.
Proof.
  unfold days_in_month.
  repeat match goal with |- context [if ?c then _ else _] => destruct c end; lia.
Qed.

Lemma parse_offset_format tz :
  match tz with Some off => -1439 ≤ off ≤ 1439 | None => True end →
  parse_offset (format_offset tz) = Some tz.
Proof.
  destruct tz as [off|]; [|reflexivity]. intros Hoff. unfold format_offset.
  assert (Hh : 0 ≤ Z.abs off / 60 < 24)
    by (split; [apply Z.div_pos | apply Z.div_lt_upper_bound]; lia).
  assert (Hm : 0 ≤ Z.abs off mod 60 < 60) by (apply Z.mod_pos_bound; lia).
  pose proof (Z.div_mod (Z.abs off) 60 ltac:(lia)) as Hdm.
  assert (Hhr : in_range 0 (Z.abs off / 60) 23 = true) by (unfold in_range; lia).
  assert (Hmr : in_range 0 (Z.abs off mod 60) 59 = true) by (unfold in_range; lia).
  destruct (off <? 0) eqn:Hneg; rewrite !append_String, !append_empty;
    cbn [parse_offset Ascii.eqb Bool.eqb mbind option_bind];
    rewrite read_digits_zfill_0 by (simpl; lia);
    cbn [expect Ascii.eqb Bool.eqb mbind option_bind andb];
    rewrite read_digits_zfill_end by (simpl; lia);
    cbn [mbind option_bind]; rewrite Hhr, Hmr; cbn [andb]; do 2 f_equal; lia.
Qed.

Lemma parse_fraction_format_offset tz :
  parse_fraction (format_offset tz) = Some (0, format_offset tz).
Proof.
  destruct tz as [off|]; [|reflexivity]. unfold format_offset.
  destruct (off <? 0); rewrite append_String; reflexivity.
Qed.

(** [parse_isoformat] reads back what [isoformat] writes. *)
Lemma parse_isoformat_isoformat d :
  datetime_ok d = true → parse_isoformat (isoformat d) = Some d.
Proof.
  destruct d as [y mo dd h mi sec us tz]. unfold datetime_ok, in_range.
  cbn [year month day hour minute second microsecond utcoffset].
  intros Hok. repeat (apply andb_prop in Hok as [Hok ?]).
  pose proof (days_in_month_le y mo) as Hdim.
  assert (Htz : match tz with Some off => -1439 ≤ off ≤ 1439 | None => True end)
    by (destruct tz; lia).
  unfold isoformat, parse_isoformat.
  cbn [year month day hour minute second microsecond utcoffset].
  rewrite ?append_String, ?append_empty.
  repeat (rewrite read_digits_zfill_0 by (simpl; lia);
          cbn [mbind option_bind expect Ascii.eqb Bool.eqb]).
  destruct (us =? 0) eqn:Hus.
  - rewrite append_empty, parse_fraction_format_offset. cbn [mbind option_bind].
    rewrite parse_offset_format by exact Htz. cbn [mbind option_bind].
    do 2 f_equal. lia.
  - rewrite append_String. cbn [parse_fraction].
    rewrite read_digits_zfill_0 by (simpl; lia). cbn [mbind option_bind].
    rewrite parse_offset_format by exact Htz. reflexivity.
Qed.

Lemma fromisoformat_isoformat d :
  datetime_ok d = true → fromisoformat (str_replace "Z" "+00:00" (isoformat d)) = Ok d.
Proof.
  intros Hok. rewrite str_replace_Z_isoformat. unfold fromisoformat.
  by rewrite parse_isoformat_isoformat, Hok.
Qed.

Lemma isoformat_truthy d : truthy (VStr (isoformat d)) = true.
Proof. reflexivity. Qed.

(** ** The job record and its dictionary form *)

Lemma to_dict_lookups job :
  let data := ScoringJob.to_dict job in
  data !! "id" = Some (VStr (ScoringJob.id job)) ∧
  data !! "business_data" = Some (VDict (ScoringJob.business_data job)) ∧
  data !! "status" = Some (VStr (ScoringJob.status job)) ∧
  data !! "score" = Some (ScoringJob.opt_val VFloat (ScoringJob.score job)) ∧
  data !! "reasoning" =
    Some (ScoringJob.opt_val (λ l, VList (VStr <$> l)) (ScoringJob.reasoning job)) ∧
  data !! "error" = Some (ScoringJob.opt_val VStr (ScoringJob.error job)) ∧
  data !! "created_at" =
    Some (ScoringJob.opt_val (λ d, VStr (isoformat d)) (ScoringJob.created_at job)) ∧
  data !! "completed_at" =
    Some (ScoringJob.opt_val (λ d, VStr (isoformat d)) (ScoringJob.completed_at job)).
Proof.
  unfold ScoringJob.to_dict.
  generalize (VStr (ScoringJob.id job)) (VDict (ScoringJob.business_data job))
    (VStr (ScoringJob.status job)) (ScoringJob.opt_val VFloat (ScoringJob.score job))
    (ScoringJob.opt_val (λ l, VList (VStr <$> l)) (ScoringJob.reasoning job))
    (ScoringJob.opt_val VStr (ScoringJob.error job))
    (ScoringJob.opt_val (λ d, VStr (isoformat d)) (ScoringJob.created_at job))
    (ScoringJob.opt_val (λ d, VStr (isoformat d)) (ScoringJob.completed_at job)).
  intros v1 v2 v3 v4 v5 v6 v7 v8. cbv zeta. repeat split; vm_compute; reflexivity.
Qed.

Lemma to_dict_keys job :
  bool_decide (dom (ScoringJob.to_dict job) ⊆ ScoringJob.field_names) = true.
Proof.
  unfold ScoringJob.to_dict.
  generalize (VStr (ScoringJob.id job)) (VDict (ScoringJob.business_data job))
    (VStr (ScoringJob.status job)) (ScoringJob.opt_val VFloat (ScoringJob.score job))
    (ScoringJob.opt_val (λ l, VList (VStr <$> l)) (ScoringJob.reasoning job))
    (ScoringJob.opt_val VStr (ScoringJob.error job))
    (ScoringJob.opt_val (λ d, VStr (isoformat d)) (ScoringJob.created_at job))
    (ScoringJob.opt_val (λ d, VStr (isoformat d)) (ScoringJob.completed_at job)).
  intros v1 v2 v3 v4 v5 v6 v7 v8. vm_compute. reflexivity.
Qed.

Lemma as_str_list_fmap field (l : list string) :
  ScoringJob.as_str_list field (VStr <$> l) = Ok l.
Proof.
  induction l as [|s l IH]; [reflexivity|]. rewrite fmap_cons.
  cbn [ScoringJob.as_str_list ScoringJob.as_str mbind result_bind]. by rewrite IH.
Qed.

Lemma timestamp_to_dict (data : pydict) key (stamp : option datetime) :
  data !! key = Some (ScoringJob.opt_val (λ d, VStr (isoformat d)) stamp) →
  (∀ d, stamp = Some d → datetime_ok d = true) →
  ScoringJob.timestamp data key = Ok stamp.
Proof.
  intros Hkey Hok. unfold ScoringJob.timestamp. rewrite Hkey.
  destruct stamp as [d|]; [|reflexivity]. cbn [ScoringJob.opt_val].
  rewrite isoformat_truthy, fromisoformat_isoformat by auto. reflexivity.
Qed.

(** [from_dict] after [to_dict] is [__post_init__]. *)
Lemma from_dict_to_dict_post_init job h :
  timestamps_ok job →
  ScoringJob.from_dict (VDict (ScoringJob.to_dict job)) h =
  (Ok (ScoringJob.__post_init__ job h).1, (ScoringJob.__post_init__ job h).2).
Proof.
  intros [Hcr Hco].
  destruct (to_dict_lookups job) as (Li & Lb & Ls & Lsc & Lr & Le & Lcr & Lco).
  unfold ScoringJob.from_dict.
  rewrite (timestamp_to_dict _ _ _ Lcr Hcr), (timestamp_to_dict _ _ _ Lco Hco).
  cbn [mbind result_bind]. rewrite to_dict_keys. cbn [mbind result_bind].
  rewrite Li, Lb, Ls, Lsc, Lr, Le.
  cbn [mbind result_bind default from_option id ScoringJob.as_str
       ScoringJob.as_dict].
  assert (Hsc : ScoringJob.as_opt_float "score"
                  (ScoringJob.opt_val VFloat (ScoringJob.score job)) =
                Ok (ScoringJob.score job)) by (by destruct (ScoringJob.score job)).
  assert (Hr : ScoringJob.as_opt_str_list "reasoning"
                 (ScoringJob.opt_val (λ l, VList (VStr <$> l)) (ScoringJob.reasoning job)) =
               Ok (ScoringJob.reasoning job)).
  { destruct (ScoringJob.reasoning job) as [l|]; [|reflexivity]. simpl.
    by rewrite as_str_list_fmap. }
  assert (He : ScoringJob.as_opt_str "error"
                 (ScoringJob.opt_val VStr (ScoringJob.error job)) =
               Ok (ScoringJob.error job)) by (by destruct (ScoringJob.error job)).
  assert (Hun : ScoringJob.untouched "completed_at" (ScoringJob.to_dict job)
                  (ScoringJob.completed_at job) = Ok (ScoringJob.completed_at job)).
  { unfold ScoringJob.untouched. rewrite Lco.
    by destruct (ScoringJob.completed_at job). }
  rewrite Hsc, Hr, He, Hun. cbn [mbind result_bind mret result_ret].
  replace (ScoringJob.mk _ _ _ _ _ _ _ _) with job by (by destruct job).
  by destruct (ScoringJob.__post_init__ job h).
Qed.

(** [__post_init__] changes nothing on a job it has already been through. *)
Lemma post_init_constructed job h :
  constructed job → ScoringJob.__post_init__ job h = (job, h).
Proof.
  intros [Hid [created Hcreated]]. unfold ScoringJob.__post_init__.
  apply String.eqb_neq in Hid. by rewrite Hid, Hcreated.
Qed.




(** ** The queue *)

Section QueueProperties.

Context `{Json}.

Lemma pop_last_None (l : list string) : pop_last l = None → l = [].
Proof.
  destruct l as [|x l]; [done|]. simpl.
  destruct (pop_last l) as [[init y]|]; discriminate.
Qed.

Lemma pop_last_Some (l init : list string) (x : string) :
  pop_last l = Some (init, x) → l = init ++ [x].
Proof.
  revert init. induction l as [|y l IH]; intros init; [discriminate|]. simpl.
  destruct (pop_last l) as [[init' z]|] eqn:Hl.
  - intros [= <- <-]. by rewrite (IH init').
  - intros [= <- <-]. by rewrite (pop_last_None l).
Qed.



Lemma brpop_empty key timeout w :
  (∀ seconds value, redis w !! key ≠ Some (RString seconds value)) →
  queue_items key w = [] →
  brpop key timeout w = (Ok None, log (Brpop key timeout) w).
Proof.
  intros Hlist. unfold brpop, queue_items. cbn [redis log].
  destruct (redis w !! key) as [[seconds value|items]|] eqn:Hkey.
  - by destruct (Hlist seconds value).
  - by intros ->.
  - done.
Qed.

Lemma brpop_item key timeout w init item :
  queue_items key w = init ++ [item] →
  ∃ w', brpop key timeout w = (Ok (Some (key, item)), w') ∧
        queue_items key w' = init ∧
        (∀ seconds value, redis w' !! key ≠ Some (RString seconds value)).
Proof.
  unfold brpop, queue_items. cbn [redis log].
  destruct (redis w !! key) as [[seconds value|items]|] eqn:Hkey;
    try (by intros Hnil; destruct init; discriminate).
  intros ->. destruct (pop_last (init ++ [item])) as [[init' item']|] eqn:Hpop.
  - apply pop_last_Some in Hpop. apply app_inj_tail in Hpop as [<- <-].
    destruct init as [|x init].
    + eexists. split; [done|]. cbn [redis set_redis].
      rewrite lookup_delete_eq. done.
    + eexists. split; [done|]. cbn [redis set_redis].
      rewrite lookup_insert_eq. done.
  - apply pop_last_None in Hpop. by destruct init.
Qed.





End QueueProperties.


(** ** Values as JSON carries them *)

Lemma weight_element (x : pyval) (l : list pyval) :
  x ∈ l → (weight x ≤ foldr (λ x n, weight x + n) 0 l)%nat.
Proof.
  induction 1 as [x l|x y l _ IH]; cbn [foldr]; lia.
Qed.

Lemma weight_entry (d : pydict) key x :
  d !! key = Some x → (weight x ≤ map_fold (λ _ x n, weight x + n) 0 d)%nat.
Proof.
  revert key x.
  apply (map_fold_weak_ind
           (λ r (m : pydict), ∀ key x, m !! key = Some x → (weight x ≤ r)%nat)).
  - intros key x. by rewrite lookup_empty.
  - intros i y m r _ IH key x. destruct (decide (key = i)) as [->|Hne].
    + rewrite lookup_insert_eq. intros [= ->]. lia.
    + rewrite lookup_insert_ne by done. intros Hx. specialize (IH key x Hx). lia.
Qed.

(** Induction on a value, through the lists and the dicts it holds. *)
Lemma pyval_nested_ind (P : pyval → Prop) :
  P VNone → (∀ b, P (VBool b)) → (∀ n, P (VInt n)) → (∀ x, P (VFloat x)) →
  (∀ s, P (VStr s)) →
  (∀ l, Forall P l → P (VList l)) →
  (∀ l, Forall P l → P (VTuple l)) →
  (∀ d, map_Forall (λ _, P) d → P (VDict d)) →
  ∀ v, P v.
Proof.
  intros HN HB HI HF HS HL HT HD v.
  remember (weight v) as n eqn:Hn. revert v Hn.
  induction n as [n IH] using lt_wf_ind. intros v ->.
  destruct v as [|b|n|x|s|l|l|d]; auto.
  - apply HL, Forall_forall. intros x Hx. apply (IH (weight x)); [|reflexivity].
    cbn [weight]. pose proof (weight_element x l Hx). lia.
  - apply HT, Forall_forall. intros x Hx. apply (IH (weight x)); [|reflexivity].
    cbn [weight]. pose proof (weight_element x l Hx). lia.
  - apply HD. intros key x Hx. apply (IH (weight x)); [|reflexivity].
    cbn [weight]. pose proof (weight_entry d key x Hx). lia.
Qed.

(** What JSON read once, it reads the same again. *)
Lemma as_json_idempotent v : as_json (as_json v) = as_json v.
Proof.
  induction v as [|b|n|x|s|l IH|l IH|d IH] using pyval_nested_ind; try reflexivity.
  - cbn [as_json]. f_equal. rewrite <- list_fmap_compose.
    apply Forall_fmap_ext. exact IH.
  - cbn [as_json]. f_equal. rewrite <- list_fmap_compose.
    apply Forall_fmap_ext. exact IH.
  - cbn [as_json]. f_equal. rewrite <- map_fmap_compose.
    apply map_fmap_ext. intros key x Hx. exact (IH key x Hx).
Qed.

Lemma json_exact_entries (d : pydict) :
  map_fold (λ _ x b, json_exact x && b) true d = true →
  map_Forall (λ _ x, json_exact x = true) d.
Proof.
  apply (map_fold_weak_ind
           (λ r (m : pydict), r = true → map_Forall (λ _ x, json_exact x = true) m)).
  - intros _. apply map_Forall_empty.
  - intros i x m r Hfresh IH [Hx Hr]%andb_prop.
    apply map_Forall_insert; [exact Hfresh|]. split; [exact Hx | by apply IH].
Qed.

(** A value made of the types JSON has is carried as it is. *)
Lemma json_exact_as_json v : json_exact v = true → as_json v = v.
Proof.
  induction v as [|b|n|x|s|l IH|l IH|d IH] using pyval_nested_ind; try done.
  - cbn [json_exact as_json]. intros Hl. f_equal.
    rewrite forallb_forall in Hl. rewrite <- (list_fmap_id l) at 2.
    apply Forall_fmap_ext, Forall_forall. intros x Hx.
    rewrite Forall_forall in IH. apply (IH x Hx), Hl. by apply list_elem_of_In.
  - cbn [json_exact as_json]. intros Hd%json_exact_entries. f_equal.
    rewrite <- (map_fmap_id d) at 2. apply map_fmap_ext. intros key x Hx.
    apply (IH key x Hx), (Hd key x Hx).
Qed.

Lemma json_exact_business (business_data : pydict) :
  json_exact (VDict business_data) = true → as_json <$> business_data = business_data.
Proof.
  intros Hexact%json_exact_as_json. cbn [as_json] in Hexact. by injection Hexact.
Qed.



Lemma as_loaded_idempotent job : as_loaded (as_loaded job) = as_loaded job.
Proof.
  unfold as_loaded. cbn [ScoringJob.id ScoringJob.business_data ScoringJob.status
    ScoringJob.score ScoringJob.reasoning ScoringJob.error ScoringJob.created_at
    ScoringJob.completed_at]. f_equal.
  rewrite <- map_fmap_compose. apply map_fmap_ext. intros key x _.
  apply as_json_idempotent.
Qed.

Lemma as_json_strings (l : list string) : as_json <$> (VStr <$> l) = VStr <$> l.
Proof. induction l as [|s l IH]; [reflexivity|]. rewrite !fmap_cons. by rewrite IH. Qed.

(** The dictionary form of a job, as JSON carries it, is the dictionary
    form of the job read back. *)
Lemma to_dict_as_json job :
  as_json <$> ScoringJob.to_dict job = ScoringJob.to_dict (as_loaded job).
Proof.
  unfold ScoringJob.to_dict, as_loaded.
  cbn [ScoringJob.id ScoringJob.business_data ScoringJob.status
    ScoringJob.score ScoringJob.reasoning ScoringJob.error ScoringJob.created_at
    ScoringJob.completed_at].
  rewrite <- list_to_map_fmap. cbn [fmap list_fmap prod_map fst snd].
  repeat f_equal.
  - by destruct (ScoringJob.score job).
  - destruct (ScoringJob.reasoning job) as [l|]; [|reflexivity].
    cbn [ScoringJob.opt_val as_json]. by rewrite as_json_strings.
  - by destruct (ScoringJob.error job).
  - by destruct (ScoringJob.created_at job).
  - by destruct (ScoringJob.completed_at job).
Qed.

(** ** Submission and lookup *)

Lemma format_uuid_not_empty bits : format_uuid bits ≠ "".
Proof. unfold format_uuid. cbn [zfill]. rewrite append_String. discriminate. Qed.

Lemma new_job u business_data h :
  u ≠ "" →
  ScoringJob.new u business_data h =
  (ScoringJob.mk u business_data "pending" None None None (Some (utcnow h)) None, h).
Proof.
  intros Hu. unfold ScoringJob.new, ScoringJob.__init__, ScoringJob.__post_init__.
  cbn [ScoringJob.id]. apply String.eqb_neq in Hu. by rewrite Hu.
Qed.

Lemma job_key_not_queue_key job_id name : "job:" +:+ job_id ≠ "queue:" +:+ name.
Proof. rewrite !append_String. discriminate. Qed.

Section SubmissionProperties.

Context `{Json}.

Lemma setex_Ok key seconds value w w' :
  setex key seconds value w = (Ok (), w') →
  0 < seconds ∧
  w' = {| redis := <[key := RString seconds value]> (redis w);
          host := host w;
          trace := trace w ++ [Setex key seconds value] |}.
Proof.
  unfold setex. destruct (seconds <=? 0) eqn:Hs; [discriminate|].
  intros [= <-]. split; [lia | reflexivity].
Qed.

Lemma setex_positive key seconds value w :
  0 < seconds →
  setex key seconds value w =
  (Ok (), {| redis := <[key := RString seconds value]> (redis w);
             host := host w;
             trace := trace w ++ [Setex key seconds value] |}).
Proof. intros Hs. unfold setex. destruct (seconds <=? 0) eqn:Hle; [lia | reflexivity]. Qed.

Lemma setex_trace key seconds value w :
  trace (setex key seconds value w).2 = trace w ++ [Setex key seconds value].
Proof. unfold setex. by destruct (seconds <=? 0). Qed.

Lemma lpush_Ok key item w n w' :
  lpush key item w = (Ok n, w') →
  redis w' = <[key := RList (item :: queue_items key w)]> (redis w) ∧
  host w' = host w ∧
  trace w' = trace w ++ [Lpush key item].
Proof.
  unfold lpush, queue_items. cbn [redis log].
  destruct (redis w !! key) as [[seconds value|items]|]; [discriminate| |];
    intros [= <- <-]; done.
Qed.

(** What a successful [submit_job] did. *)
Lemma submit_job_Ok self business_data w job_id w' :
  submit_job self business_data w = (Ok job_id, w') →
  let job := ScoringJob.mk (format_uuid (entropy (host w))) business_data "pending"
               None None None (Some (clock (host w))) None in
  let job_key := "job:" +:+ job_id in
  let queue_key := "queue:" +:+ queue_name self in
  let document := json_dumps (VDict (ScoringJob.to_dict job)) in
  job_id = ScoringJob.id job ∧
  0 < job_timeout self * 2 ∧
  redis w' = <[queue_key := RList (job_id :: queue_items queue_key w)]>
               (<[job_key := RString (job_timeout self * 2) document]> (redis w)) ∧
  host w' = (uuid4 (host w)).2 ∧
  trace w' = trace w ++ [Setex job_key (job_timeout self * 2) document;
                         Lpush queue_key job_id].
Proof.
  unfold submit_job, mbind, M_bind, with_host. cbn [uuid4 host set_host].
  rewrite new_job by apply format_uuid_not_empty. cbn [ScoringJob.id utcnow clock].
  set (job := ScoringJob.mk _ _ _ _ _ _ _ _).
  destruct (setex _ _ _ _) as [[[]|e] w1] eqn:Hsetex; [|discriminate].
  apply setex_Ok in Hsetex as [Httl ->].
  destruct (lpush _ _ _) as [[n|e] w2] eqn:Hlpush; [|discriminate].
  apply lpush_Ok in Hlpush as (Hredis & Hhost & Htrace).
  cbn [redis host trace] in *. intros [= <- <-].
  repeat split; try done.
  - rewrite Hredis. unfold queue_items. cbn [redis].
    by rewrite lookup_insert_ne by apply job_key_not_queue_key.
  - rewrite Htrace. by rewrite <- app_assoc.
Qed.

Lemma as_loaded_timestamps_ok job : timestamps_ok job → timestamps_ok (as_loaded job).
Proof. by intros [Hcr Hco]. Qed.

Lemma as_loaded_constructed job : constructed job → constructed (as_loaded job).
Proof. by intros [Hid Hcr]. Qed.

(** Reading a stored job gives the job as JSON carries it. *)
Lemma get_job_status_stored self job w :
  stored self job w → timestamps_ok job → constructed job →
  get_job_status self (ScoringJob.id job) w =
  (Ok (Some (as_loaded job)), log (Get ("job:" +:+ ScoringJob.id job)) w).
Proof.
  intros Hstored Hstamps Hconstructed.
  unfold get_job_status, mbind, M_bind, get. cbn [redis log].
  rewrite Hstored. rewrite json_dumps_truthy. unfold lift_result.
  rewrite json_loads_dumps. cbn [as_json]. rewrite to_dict_as_json.
  unfold with_host_result. cbn [host].
  rewrite from_dict_to_dict_post_init by by apply as_loaded_timestamps_ok.
  rewrite post_init_constructed by by apply as_loaded_constructed.
  cbn [fst snd]. unfold mret, M_ret.
  reflexivity.
Qed.

(** The job [submit_job] builds in the world [w], read back. *)
Lemma submitted_job_loaded self business_data w job_id w' :
  datetime_ok (clock (host w)) = true →
  submit_job self business_data w = (Ok job_id, w') →
  get_job_status self job_id w' =
  (Ok (Some (ScoringJob.mk job_id (as_json <$> business_data) "pending" None None None
               (Some (clock (host w))) None)),
   log (Get ("job:" +:+ job_id)) w').
Proof.
  intros Hclock Hsubmit. apply submit_job_Ok in Hsubmit as (Hid & Httl & Hredis & _ & _).
  cbn [ScoringJob.id] in Hid. rewrite <- Hid in Hredis.
  apply (get_job_status_stored self
           (ScoringJob.mk job_id business_data "pending" None None None
              (Some (clock (host w))) None)).
  - unfold stored. rewrite Hredis. cbn [ScoringJob.id].
    rewrite lookup_insert_ne by (apply not_eq_sym, job_key_not_queue_key).
    by rewrite lookup_insert_eq.
  - split; intros d [= <-]. exact Hclock.
  - split; [cbn [ScoringJob.id]; rewrite Hid; apply format_uuid_not_empty | by eexists].
Qed.

(** C5, as stated: a payload that holds a tuple does not come back equal;
    [json.dumps] writes the tuple as an array and [json.loads] reads a
    list. *)
Lemma submitted_tuple_read_as_list :
  ∃ job w'',
    get_job_status default_scorer "00000000-27e4-4b32-86be-c9b16e398115"
      (submit_job default_scorer tagged_business empty_world).2 = (Ok (Some job), w'') ∧
    ScoringJob.status job = "pending" ∧
    ScoringJob.business_data job !! "tags" = Some (VList [VStr "a"; VStr "b"]) ∧
    ScoringJob.business_data job ≠ tagged_business.
Proof.
  do 2 eexists. split; [reflexivity|]. split; [reflexivity|].
  split; [reflexivity|].
  intros Heq. apply (f_equal (λ d : pydict, d !! "tags")) in Heq.
  vm_compute in Heq. discriminate Heq.
Qed.

(** C5, amended: for a payload made of the types JSON has (string keys,
    lists and no tuples, no [NaN]), when [submit_job] returns an id,
    [get_job_status] on that id, right after, returns the job with status
    [pending] and the business data that was submitted. *)
Theorem get_status_after_submit self business_data w job_id w' :
  json_exact (VDict business_data) = true →
  datetime_ok (clock (host w)) = true →
  submit_job self business_data w = (Ok job_id, w') →
  ∃ job w'',
    get_job_status self job_id w' = (Ok (Some job), w'') ∧
    ScoringJob.id job = job_id ∧
    ScoringJob.status job = "pending" ∧
    ScoringJob.business_data job = business_data.
Proof.
  intros Hexact Hclock Hsubmit.
  pose proof (submitted_job_loaded self business_data w job_id w' Hclock Hsubmit) as Hget.
  do 2 eexists. split; [exact Hget|]. repeat split.
  cbn [ScoringJob.business_data]. by apply json_exact_business.
Qed.

(** [submit_job] returns whenever Redis accepts the time to live and the
    queue key does not hold a string. *)
Lemma submit_job_returns self business_data w :
  0 < job_timeout self →
  (∀ seconds value,
     redis w !! ("queue:" +:+ queue_name self) ≠ Some (RString seconds value)) →
  ∃ job_id w', submit_job self business_data w = (Ok job_id, w').
Proof.
  intros Htimeout Hqueue.
  unfold submit_job, mbind, M_bind, with_host. cbn [uuid4 host set_host].
  rewrite new_job by apply format_uuid_not_empty. cbn [ScoringJob.id host set_host].
  rewrite setex_positive by lia. unfold lpush. cbn [redis log set_host].
  rewrite lookup_insert_ne by apply job_key_not_queue_key.
  destruct (redis w !! _) as [[seconds value|items]|] eqn:Hkey.
  - by destruct (Hqueue seconds value).
  - do 2 eexists. reflexivity.
  - do 2 eexists. reflexivity.
Qed.

End SubmissionProperties.

Lemma get_status_after_submit_witness :
  ∃ job w'',
    get_job_status default_scorer "00000000-27e4-4b32-86be-c9b16e398115"
      (submit_job default_scorer saas_company_a empty_world).2 = (Ok (Some job), w'') ∧
    ScoringJob.id job = "00000000-27e4-4b32-86be-c9b16e398115" ∧
    ScoringJob.status job = "pending" ∧
    ScoringJob.business_data job = saas_company_a.
Proof.
  apply (get_status_after_submit default_scorer saas_company_a empty_world).
  - reflexivity.
  - reflexivity.
  - reflexivity.
Defined.

(** Every job the constructor returns is [constructed]. *)
Lemma init_constructed id business_data status score reasoning error created_at
    completed_at h :
  constructed
    (ScoringJob.__init__ id business_data status score reasoning error created_at
       completed_at h).1.
Proof.
  unfold ScoringJob.__init__, ScoringJob.__post_init__, constructed.
  cbn [ScoringJob.id]. destruct (String.eqb id "") eqn:Hid.
  - cbn [uuid4 ScoringJob.set_id ScoringJob.created_at ScoringJob.id].
    destruct created_at; cbn [fst ScoringJob.id ScoringJob.created_at ScoringJob.set_created_at];
      (split; [apply format_uuid_not_empty | by eexists]).
  - apply String.eqb_neq in Hid. cbn [ScoringJob.created_at].
    destruct created_at; cbn [fst ScoringJob.id ScoringJob.created_at ScoringJob.set_created_at];
      (split; [exact Hid | by eexists]).
Qed.

(** ** The worker *)

Section WorkerProperties.

Context `{Json}.

Variable scorer : pydict → outcome.

(** [_process_job] with a time to live Redis accepts, step by step. *)
Lemma _process_job_run self job w :
  0 < job_timeout self →
  let key := "job:" +:+ ScoringJob.id job in
  let ttl := job_timeout self * 2 in
  let document j := json_dumps (VDict (ScoringJob.to_dict j)) in
  let job1 := ScoringJob.set_status "processing" job in
  let w1 := {| redis := <[key := RString ttl (document job1)]> (redis w);
               host := host w;
               trace := trace w ++ [Setex key ttl (document job1);
                                    Scoring (ScoringJob.business_data job)] |} in
  let finish job2 :=
    (Finished (Ok ()), job2,
     {| redis := <[key := RString ttl (document job2)]> (redis w1);
        host := host w;
        trace := trace w1 ++ [Setex key ttl (document job2)] |}) in
  _process_job scorer self job w =
  match scorer (ScoringJob.business_data job) with
  | Killed => (Died, job1, w1)
  | Returned score_data => finish (completed_with score_data (utcnow (host w)) job1)
  | Raised e => finish (failed_with e (utcnow (host w)) job1)
  end.
Proof.
  intros Htimeout. cbv zeta. unfold _process_job, _update_job.
  rewrite setex_positive by lia. cbn [ScoringJob.set_status ScoringJob.id ScoringJob.business_data].
  unfold log. cbn [redis host trace]. rewrite <- app_assoc. cbn [app].
  destruct (scorer (ScoringJob.business_data job)) as [score_data|e|]; [| |reflexivity].
  - cbn [ScoringJob.set_completed_at ScoringJob.set_status ScoringJob.set_reasoning
         ScoringJob.set_score ScoringJob.id].
    rewrite setex_positive by lia. reflexivity.
  - cbn [ScoringJob.set_completed_at ScoringJob.set_status ScoringJob.set_error
         ScoringJob.id].
    rewrite setex_positive by lia. reflexivity.
Qed.

(** C1: when the scoring function, once called, raises, [_process_job]
    ends normally (the exception does not leave it), the job is failed,
    its error is the message of the exception, its completion time is
    stamped, and this state of the job is in the store. *)
Theorem scoring_exception_marks_failed self job w e :
  0 < job_timeout self →
  scorer (ScoringJob.business_data job) = Raised e →
  ∃ job' w',
    _process_job scorer self job w = (Finished (Ok ()), job', w') ∧
    ScoringJob.id job' = ScoringJob.id job ∧
    ScoringJob.status job' = "failed" ∧
    ScoringJob.error job' = Some (message e) ∧
    ScoringJob.completed_at job' = Some (utcnow (host w)) ∧
    stored self job' w'.
Proof.
  intros Htimeout Hraised. rewrite _process_job_run by exact Htimeout.
  rewrite Hraised. do 2 eexists. split; [reflexivity|].
  repeat split. unfold stored. cbn [redis]. apply lookup_insert_eq.
Qed.

(** C2: a job that enters [_process_job] with its result fields unset, as
    every submitted job does, and leaves it completed or failed, has
    exactly one of the two result sets: score and reasoning without error
    when completed, error without score and reasoning when failed. *)
Theorem result_sets_exclusive self job w :
  results_unset job →
  let job' := (_process_job scorer self job w).1.2 in
  ScoringJob.status job' = "completed" ∨ ScoringJob.status job' = "failed" →
  (ScoringJob.status job' = "completed" ∧
   is_Some (ScoringJob.score job') ∧ is_Some (ScoringJob.reasoning job') ∧
   ScoringJob.error job' = None) ∨
  (ScoringJob.status job' = "failed" ∧
   is_Some (ScoringJob.error job') ∧
   ScoringJob.score job' = None ∧ ScoringJob.reasoning job' = None).
Proof.
  intros (Hscore & Hreasoning & Herror). cbv zeta.
  unfold _process_job, _update_job, setex.
  cbn [ScoringJob.set_status ScoringJob.id ScoringJob.business_data].
  destruct (job_timeout self * 2 <=? 0).
  - cbn [fst snd ScoringJob.status ScoringJob.set_completed_at ScoringJob.set_error
         ScoringJob.set_status ScoringJob.error ScoringJob.score ScoringJob.reasoning].
    intros _. right. rewrite Hscore, Hreasoning. by eauto.
  - destruct (scorer (ScoringJob.business_data job)) as [score_data|e|].
    + cbn [fst snd ScoringJob.status ScoringJob.set_completed_at ScoringJob.set_status
           ScoringJob.set_reasoning ScoringJob.set_score ScoringJob.error
           ScoringJob.score ScoringJob.reasoning ScoringJob.id].
      intros _. left. rewrite Herror. by eauto.
    + cbn [fst snd ScoringJob.status ScoringJob.set_completed_at ScoringJob.set_status
           ScoringJob.set_error ScoringJob.error ScoringJob.score ScoringJob.reasoning
           ScoringJob.id].
      intros _. right. rewrite Hscore, Hreasoning. by eauto.
    + cbn [fst snd ScoringJob.status]. intros [?|?]; discriminate.
Qed.

(** C3: [_process_job] writes the job with status [processing] to the
    store and only then calls the scoring function: the [SETEX] is the
    event right before the call.  When the process dies inside the call,
    nothing more happens, and the store holds the job as [processing]. *)
Theorem processing_persisted_before_scoring self job w :
  0 < job_timeout self →
  let job1 := ScoringJob.set_status "processing" job in
  let key := "job:" +:+ ScoringJob.id job in
  let document := json_dumps (VDict (ScoringJob.to_dict job1)) in
  let w' := (_process_job scorer self job w).2 in
  ScoringJob.status job1 = "processing" ∧
  (∃ later, trace w' = trace w ++ [Setex key (job_timeout self * 2) document;
                                   Scoring (ScoringJob.business_data job)] ++ later) ∧
  (scorer (ScoringJob.business_data job) = Killed →
   (_process_job scorer self job w).1.1 = Died ∧
   stored self job1 w' ∧
   trace w' = trace w ++ [Setex key (job_timeout self * 2) document;
                          Scoring (ScoringJob.business_data job)]).
Proof.
  intros Htimeout. cbv zeta. rewrite _process_job_run by exact Htimeout.
  split; [reflexivity|]. split.
  - destruct (scorer (ScoringJob.business_data job)); cbn [snd trace].
    + eexists. rewrite <- app_assoc. reflexivity.
    + eexists. rewrite <- app_assoc. reflexivity.
    + exists []. reflexivity.
  - intros ->. cbn [fst snd trace]. repeat split.
    unfold stored. cbn [redis ScoringJob.set_status ScoringJob.id]. apply lookup_insert_eq.
Qed.

End WorkerProperties.

Lemma scoring_exception_marks_failed_witness :
  ∃ job' w',
    _process_job run_score_business default_scorer (pending_job bad_business) empty_world
      = (Finished (Ok ()), job', w') ∧
    ScoringJob.id job' = "job-1" ∧
    ScoringJob.status job' = "failed" ∧
    ScoringJob.error job' =
      Some "'<' not supported between instances of 'str' and 'int'" ∧
    ScoringJob.completed_at job' = Some (clock leap_day_host) ∧
    stored default_scorer job' w'.
Proof.
  apply (scoring_exception_marks_failed run_score_business default_scorer
           (pending_job bad_business) empty_world
           (Exception TypeError "'<' not supported between instances of 'str' and 'int'")).
  - reflexivity.
  - vm_compute. reflexivity.
Defined.

Lemma result_sets_exclusive_witness :
  let job' :=
    (_process_job run_score_business default_scorer (pending_job saas_company_a)
       empty_world).1.2 in
  (ScoringJob.status job' = "completed" ∧
   is_Some (ScoringJob.score job') ∧ is_Some (ScoringJob.reasoning job') ∧
   ScoringJob.error job' = None) ∨
  (ScoringJob.status job' = "failed" ∧
   is_Some (ScoringJob.error job') ∧
   ScoringJob.score job' = None ∧ ScoringJob.reasoning job' = None).
Proof.
  apply (result_sets_exclusive run_score_business default_scorer
           (pending_job saas_company_a) empty_world).
  - repeat split.
  - left. vm_compute. reflexivity.
Defined.

Lemma processing_persisted_before_scoring_witness :
  let job1 := ScoringJob.set_status "processing" (pending_job saas_company_a) in
  let w' := (_process_job (λ _, Killed) default_scorer (pending_job saas_company_a)
               empty_world).2 in
  stored default_scorer job1 w'.
Proof.
  apply (processing_persisted_before_scoring (λ _, Killed) default_scorer
           (pending_job saas_company_a) empty_world).
  - reflexivity.
  - reflexivity.
Defined.

(** ** One turn of the worker on a submitted job *)

Section WorkerTurn.

Context `{Json}.

Variable scorer : pydict → outcome.

(** On a queue that was empty, the turn of the worker after [submit_job]
    pops the submitted id, loads the job as it was submitted, its
    business data as JSON carries them, and processes it. *)
Lemma worker_iteration_after_submit self business_data w job_id w1 :
  datetime_ok (clock (host w)) = true →
  redis w !! ("queue:" +:+ queue_name self) = None →
  submit_job self business_data w = (Ok job_id, w1) →
  ∃ w2,
    host w2 = host w1 ∧
    worker_iteration scorer self w1 =
    (match (_process_job scorer self
              (ScoringJob.mk job_id (as_json <$> business_data) "pending" None None None
                 (Some (clock (host w))) None) w2).1.1 with
     | Died => false
     | Finished _ => true
     end,
     (_process_job scorer self
        (ScoringJob.mk job_id (as_json <$> business_data) "pending" None None None
           (Some (clock (host w))) None) w2).2).
Proof.
  intros Hclock Hempty Hsubmit.
  apply submit_job_Ok in Hsubmit as (Hid & Httl & Hredis & Hhost & _).
  cbn [ScoringJob.id] in Hid. rewrite <- Hid in Hredis.
  assert (Hitems : queue_items ("queue:" +:+ queue_name self) w = [])
    by (unfold queue_items; by rewrite Hempty).
  rewrite Hitems in Hredis.
  set (job := ScoringJob.mk job_id business_data "pending" None None None
                (Some (clock (host w))) None).
  unfold worker_iteration, brpop. cbn [redis log]. rewrite Hredis.
  rewrite lookup_insert_eq. cbn [pop_last].
  match goal with |- context [get_job_status self job_id ?w0] => set (popped := w0) end.
  assert (Hstored : stored self job popped).
  { unfold stored, popped. cbn [redis set_redis ScoringJob.id job].
    rewrite lookup_delete_ne by (apply not_eq_sym, job_key_not_queue_key).
    rewrite lookup_insert_ne by (apply not_eq_sym, job_key_not_queue_key).
    by rewrite lookup_insert_eq. }
  assert (Hget : get_job_status self job_id popped =
                 (Ok (Some (as_loaded job)), log (Get ("job:" +:+ job_id)) popped)).
  { apply (get_job_status_stored self job popped Hstored).
    - split; intros d [= <-]. exact Hclock.
    - split; [cbn [ScoringJob.id job]; rewrite Hid; apply format_uuid_not_empty
             | by eexists]. }
  rewrite Hget. exists (log (Get ("job:" +:+ job_id)) popped). split; [reflexivity|].
  unfold as_loaded, job. cbn [ScoringJob.id ScoringJob.business_data ScoringJob.status
    ScoringJob.score ScoringJob.reasoning ScoringJob.error ScoringJob.created_at
    ScoringJob.completed_at].
  by destruct (_process_job scorer self _ _) as [[[r|] job'] w3].
Qed.

(** After that turn, unless the process died, the store holds the job
    completed, with score and reasoning and no error, or failed, with an
    error and no score or reasoning. *)
Lemma submitted_job_processed self business_data w job_id w1 :
  datetime_ok (clock (host w)) = true →
  redis w !! ("queue:" +:+ queue_name self) = None →
  submit_job self business_data w = (Ok job_id, w1) →
  scorer (as_json <$> business_data) ≠ Killed →
  ∃ job',
    stored self job' (worker_iteration scorer self w1).2 ∧
    (worker_iteration scorer self w1).1 = true ∧
    ScoringJob.id job' = job_id ∧
    ((ScoringJob.status job' = "completed" ∧
      is_Some (ScoringJob.score job') ∧ is_Some (ScoringJob.reasoning job') ∧
      ScoringJob.error job' = None) ∨
     (ScoringJob.status job' = "failed" ∧
      is_Some (ScoringJob.error job') ∧
      ScoringJob.score job' = None ∧ ScoringJob.reasoning job' = None)).
Proof.
  intros Hclock Hempty Hsubmit Halive.
  destruct (worker_iteration_after_submit self business_data w job_id w1
              Hclock Hempty Hsubmit) as (w2 & _ & ->).
  apply submit_job_Ok in Hsubmit as (_ & Httl & _).
  rewrite (_process_job_run scorer) by lia.
  cbn [ScoringJob.business_data ScoringJob.id ScoringJob.set_status].
  destruct (scorer (as_json <$> business_data)) as [score_data|e|]; [| |done].
  - eexists. split; [unfold stored; cbn [snd redis]; apply lookup_insert_eq|].
    split; [reflexivity|]. split; [reflexivity|]. left. cbn. by eauto.
  - eexists. split; [unfold stored; cbn [snd redis]; apply lookup_insert_eq|].
    split; [reflexivity|]. split; [reflexivity|]. right. cbn. by eauto.
Qed.

End WorkerTurn.

(** ** Time to live *)

Section TimeToLive.

Context `{Json}.

Lemma writes_only_refl ttl w : writes_only ttl w w.
Proof. exists []. split; [by rewrite app_nil_r | constructor]. Qed.

Lemma writes_only_trans ttl w1 w2 w3 :
  writes_only ttl w1 w2 → writes_only ttl w2 w3 → writes_only ttl w1 w3.
Proof.
  intros (ev1 & H1 & Hw1) (ev2 & H2 & Hw2). exists (ev1 ++ ev2). split.
  - by rewrite H2, H1, app_assoc.
  - by apply Forall_app.
Qed.

Lemma writes_only_log ttl ev w :
  match ev with Setex _ seconds _ => seconds = ttl | _ => True end →
  writes_only ttl w (log ev w).
Proof. intros Hev. exists [ev]. split; [reflexivity | by repeat constructor]. Qed.

Lemma setex_writes_only key seconds value w :
  writes_only seconds w (setex key seconds value w).2.
Proof.
  exists [Setex key seconds value]. split; [apply setex_trace | by repeat constructor].
Qed.

Lemma lpush_writes_only ttl key item w : writes_only ttl w (lpush key item w).2.
Proof.
  exists [Lpush key item]. split; [|by repeat constructor].
  unfold lpush. cbn [redis log]. by destruct (redis w !! key) as [[]|].
Qed.

Lemma brpop_writes_only ttl key timeout w : writes_only ttl w (brpop key timeout w).2.
Proof.
  exists [Brpop key timeout]. split; [|by repeat constructor].
  unfold brpop. cbn [redis log]. destruct (redis w !! key) as [[|items]|]; try done.
  by destruct (pop_last items) as [[[] ?]|].
Qed.

Lemma get_job_status_writes_only ttl self job_id w :
  writes_only ttl w (get_job_status self job_id w).2.
Proof.
  exists [Get ("job:" +:+ job_id)]. split; [|by repeat constructor].
  unfold get_job_status, mbind, M_bind, get. cbn [redis log].
  destruct (redis w !! _) as [[seconds value|]|]; try done.
  destruct (text_truthy value); [|done]. unfold lift_result.
  destruct (json_loads value) as [data|]; [|done]. unfold with_host_result.
  destruct (ScoringJob.from_dict data _) as [[job|] h]; done.
Qed.

Lemma _update_job_writes_only self job w :
  writes_only (job_timeout self * 2) w (_update_job self job w).2.
Proof. apply setex_writes_only. Qed.

Lemma submit_job_writes_only self business_data w :
  writes_only (job_timeout self * 2) w (submit_job self business_data w).2.
Proof.
  unfold submit_job, mbind, M_bind, with_host. cbn [uuid4 host set_host].
  destruct (ScoringJob.new _ _ _) as [job h]. cbn [host set_host].
  match goal with |- context [setex ?k ?s ?v ?w0] =>
    pose proof (setex_writes_only k s v w0) as Hsetex;
    destruct (setex k s v w0) as [[[]|e] w1] end; [|exact Hsetex].
  match goal with |- context [lpush ?k ?i ?w0] =>
    pose proof (lpush_writes_only (job_timeout self * 2) k i w0) as Hlpush;
    destruct (lpush k i w0) as [[n|e] w2] end;
    exact (writes_only_trans _ _ _ _ Hsetex Hlpush).
Qed.

Lemma _process_job_writes_only scorer self job w :
  writes_only (job_timeout self * 2) w (_process_job scorer self job w).2.
Proof.
  unfold _process_job.
  match goal with |- context [_update_job ?s ?j ?w0] =>
    pose proof (_update_job_writes_only s j w0) as Hfirst;
    destruct (_update_job s j w0) as [[[]|e] w1] end.
  - pose proof (writes_only_log (job_timeout self * 2)
                  (Scoring (ScoringJob.business_data
                     (ScoringJob.set_status "processing" job))) w1 I) as Hcall.
    pose proof (writes_only_trans _ _ _ _ Hfirst Hcall) as Hboth.
    destruct (scorer _) as [score_data|e|]; [| |exact Hboth];
      match goal with |- context [_update_job ?s ?j ?w0] =>
        pose proof (_update_job_writes_only s j w0) as Hlast;
        destruct (_update_job s j w0) as [r w2] end;
      exact (writes_only_trans _ _ _ _ Hboth Hlast).
  - match goal with |- context [_update_job ?s ?j ?w0] =>
      pose proof (_update_job_writes_only s j w0) as Hlast;
      destruct (_update_job s j w0) as [r w2] end.
    exact (writes_only_trans _ _ _ _ Hfirst Hlast).
Qed.

Lemma worker_iteration_writes_only scorer self w :
  writes_only (job_timeout self * 2) w (worker_iteration scorer self w).2.
Proof.
  unfold worker_iteration.
  match goal with |- context [brpop ?k ?t ?w0] =>
    pose proof (brpop_writes_only (job_timeout self * 2) k t w0) as Hpop;
    destruct (brpop k t w0) as [[[[key job_id]|]|e] w1] end; try exact Hpop.
  pose proof (get_job_status_writes_only (job_timeout self * 2) self job_id w1) as Hget.
  pose proof (writes_only_trans _ _ _ _ Hpop Hget) as Hloaded.
  destruct (get_job_status self job_id w1) as [[[job|]|e] w2]; try exact Hloaded.
  pose proof (_process_job_writes_only scorer self job w2) as Hprocess.
  destruct (_process_job scorer self job w2) as [[[r|] job'] w3];
    exact (writes_only_trans _ _ _ _ Hloaded Hprocess).
Qed.

Lemma start_worker_writes_only scorer turns self w :
  writes_only (job_timeout self * 2) w (start_worker scorer turns self w).2.
Proof.
  revert w. induction turns as [|turns IH]; intros w; [apply writes_only_refl|].
  cbn [start_worker].
  pose proof (worker_iteration_writes_only scorer self w) as Hturn.
  destruct (worker_iteration scorer self w) as [[] w1]; [|exact Hturn].
  exact (writes_only_trans _ _ _ _ Hturn (IH w1)).
Qed.

(** C7: every [SETEX] that [submit_job], [_update_job], [_process_job] and
    the worker loop send carries the time to live [job_timeout * 2], and a
    write that succeeds leaves the job in the store with that time to
    live, whatever the key held before. *)
Theorem every_write_has_ttl_twice_timeout self :
  (∀ business_data w,
     writes_only (job_timeout self * 2) w (submit_job self business_data w).2) ∧
  (∀ job w, writes_only (job_timeout self * 2) w (_update_job self job w).2) ∧
  (∀ scorer job w,
     writes_only (job_timeout self * 2) w (_process_job scorer self job w).2) ∧
  (∀ scorer turns w,
     writes_only (job_timeout self * 2) w (start_worker scorer turns self w).2) ∧
  (∀ job w w', _update_job self job w = (Ok (), w') →
     redis w' !! ("job:" +:+ ScoringJob.id job) =
     Some (RString (2 * job_timeout self)
             (json_dumps (VDict (ScoringJob.to_dict job))))) ∧
  (∀ business_data w job_id w',
     submit_job self business_data w = (Ok job_id, w') →
     ∃ document, redis w' !! ("job:" +:+ job_id) =
                 Some (RString (2 * job_timeout self) document)).
Proof.
  split; [apply submit_job_writes_only|]. split; [apply _update_job_writes_only|].
  split; [intros; apply _process_job_writes_only|].
  split; [intros; apply start_worker_writes_only|]. split.
  - intros job w w' Hupdate. unfold _update_job in Hupdate.
    apply setex_Ok in Hupdate as [_ ->]. cbn [redis].
    rewrite lookup_insert_eq. do 2 f_equal. lia.
  - intros business_data w job_id w' Hsubmit.
    apply submit_job_Ok in Hsubmit as (_ & _ & -> & _). eexists.
    rewrite lookup_insert_ne by (apply not_eq_sym, job_key_not_queue_key).
    rewrite lookup_insert_eq. do 2 f_equal. lia.
Qed.

End TimeToLive.

Lemma every_write_has_ttl_twice_timeout_witness :
  redis (_update_job default_scorer (pending_job saas_company_a) empty_world).2
    !! ("job:" +:+ ScoringJob.id (pending_job saas_company_a)) =
  Some (RString (2 * job_timeout default_scorer)
          (json_dumps (VDict (ScoringJob.to_dict (pending_job saas_company_a))))).
Proof.
  destruct (every_write_has_ttl_twice_timeout default_scorer)
    as (_ & _ & _ & _ & Hstored & _).
  apply (Hstored (pending_job saas_company_a) empty_world). reflexivity.
Defined.

(** * Further properties of the module *)

(** ** Lookup *)

Section LookupProperties.

Context `{Json}.

Lemma get_job_status_redis self job_id w :
  redis (get_job_status self job_id w).2 = redis w.
Proof.
  unfold get_job_status, mbind, M_bind, get. cbn [redis log].
  destruct (redis w !! _) as [[seconds value|]|]; try done.
  destruct (text_truthy value); [|done]. unfold lift_result.
  destruct (json_loads value) as [data|]; [|done]. unfold with_host_result.
  destruct (ScoringJob.from_dict data _) as [[job|] h]; done.
Qed.

(** X1: [get_job_status] on an id that has no record answers [None]; it
    raises nothing and leaves Redis as it was. *)
Theorem get_job_status_missing self job_id w :
  redis w !! ("job:" +:+ job_id) = None →
  (get_job_status self job_id w).1 = Ok None ∧
  redis (get_job_status self job_id w).2 = redis w.
Proof.
  intros Hmissing. split; [|apply get_job_status_redis].
  unfold get_job_status, mbind, M_bind, get. cbn [redis log]. by rewrite Hmissing.
Qed.

(** X2: [get_job_status] never changes Redis, whatever the key holds, and
    reading a stored job twice in a row gives the same job both times:
    the stored job, with its business data as JSON carries them. *)
Theorem get_job_status_read_only self :
  (∀ job_id w, redis (get_job_status self job_id w).2 = redis w) ∧
  (∀ job w,
     stored self job w → timestamps_ok job → constructed job →
     (get_job_status self (ScoringJob.id job) w).1 = Ok (Some (as_loaded job)) ∧
     (get_job_status self (ScoringJob.id job)
        (get_job_status self (ScoringJob.id job) w).2).1 = Ok (Some (as_loaded job))).
Proof.
  split; [intros; apply get_job_status_redis|].
  intros job w Hstored Hstamps Hconstructed.
  rewrite (get_job_status_stored self job w) by done. split; [reflexivity|].
  cbn [snd]. by rewrite get_job_status_stored.
Qed.

End LookupProperties.

Lemma get_job_status_missing_witness :
  (get_job_status default_scorer "no-such-job" empty_world).1 = Ok None ∧
  redis (get_job_status default_scorer "no-such-job" empty_world).2 = redis empty_world.
Proof. apply (get_job_status_missing default_scorer "no-such-job" empty_world). reflexivity. Defined.

Lemma get_job_status_read_only_witness :
  let w := (_update_job default_scorer completed_job empty_world).2 in
  (get_job_status default_scorer (ScoringJob.id completed_job) w).1 = Ok (Some completed_job) ∧
  (get_job_status default_scorer (ScoringJob.id completed_job)
     (get_job_status default_scorer (ScoringJob.id completed_job) w).2).1
  = Ok (Some completed_job).
Proof.
  destruct (get_job_status_read_only default_scorer) as [_ Hread].
  apply (Hread completed_job (_update_job default_scorer completed_job empty_world).2).
  - reflexivity.
  - split; intros d [= <-]; reflexivity.
  - split; [discriminate | by eexists].
Defined.

(** ** Processing *)

Section ProcessingProperties.

Context `{Json}.

Variable scorer : pydict → outcome.

(** X3: when the scoring function, once called, returns, [_process_job]
    ends normally, the job is completed with the score and the reasoning
    that were returned, its completion time is stamped, its error is left
    as it was, and this state of the job is in the store. *)
Theorem scoring_result_marks_completed self job w score_data :
  0 < job_timeout self →
  scorer (ScoringJob.business_data job) = Returned score_data →
  ∃ job' w',
    _process_job scorer self job w = (Finished (Ok ()), job', w') ∧
    ScoringJob.status job' = "completed" ∧
    ScoringJob.score job' = Some (sd_score score_data) ∧
    ScoringJob.reasoning job' = Some (sd_reasoning score_data) ∧
    ScoringJob.completed_at job' = Some (utcnow (host w)) ∧
    ScoringJob.error job' = ScoringJob.error job ∧
    stored self job' w'.
Proof.
  intros Htimeout Hreturned. rewrite _process_job_run by exact Htimeout.
  rewrite Hreturned. do 2 eexists. split; [reflexivity|].
  repeat split. unfold stored. cbn [redis]. apply lookup_insert_eq.
Qed.

(** X4: whatever the scoring function does and whatever Redis answers,
    [_process_job] leaves the id, the business data and the creation time
    of the job as they were. *)
Theorem _process_job_keeps_identity self job w :
  let job' := (_process_job scorer self job w).1.2 in
  ScoringJob.id job' = ScoringJob.id job ∧
  ScoringJob.business_data job' = ScoringJob.business_data job ∧
  ScoringJob.created_at job' = ScoringJob.created_at job.
Proof.
  cbv zeta. unfold _process_job.
  destruct (_update_job self _ w) as [[[]|e] w1].
  - cbn [ScoringJob.set_status ScoringJob.business_data].
    destruct (scorer (ScoringJob.business_data job)) as [score_data|e|].
    + by destruct (_update_job self _ _) as [r w2].
    + by destruct (_update_job self _ _) as [r w2].
    + done.
  - by destruct (_update_job self _ w1) as [r w2].
Qed.

(** X5: when Redis rejects the time to live (a [job_timeout] that is not
    positive), [_process_job] never calls the scoring function; the job
    object is marked failed with the message of Redis, but neither write
    reaches the store and the exception of the second write leaves the
    routine. *)
Theorem _process_job_rejected_ttl self job w :
  job_timeout self ≤ 0 →
  ∃ e job' w',
    _process_job scorer self job w = (Finished (Raise e), job', w') ∧
    exn_type e = ResponseError ∧
    ScoringJob.status job' = "failed" ∧
    ScoringJob.error job' = Some (message e) ∧
    redis w' = redis w ∧
    Forall (λ ev, match ev with Scoring _ => False | _ => True end)
           (drop (length (trace w)) (trace w')).
Proof.
  intros Htimeout. unfold _process_job, _update_job, setex.
  destruct (job_timeout self * 2 <=? 0) eqn:Httl; [|lia].
  do 3 eexists. split; [reflexivity|]. repeat split.
  cbn [trace log]. rewrite <- app_assoc, drop_app_length. by repeat constructor.
Qed.

End ProcessingProperties.

(** ** Submission *)

Section SubmissionFailures.

Context `{Json}.

(** X6: [submit_job] writes the record before it enqueues the id.  When
    the queue key holds a string, [LPUSH] fails and [submit_job] raises,
    but the record of the new job is already in the store, where no worker
    will ever find its id. *)
Theorem submit_job_not_atomic self business_data w seconds value :
  0 < job_timeout self →
  redis w !! ("queue:" +:+ queue_name self) = Some (RString seconds value) →
  ∃ job,
    (submit_job self business_data w).1 = Raise WRONGTYPE ∧
    stored self job (submit_job self business_data w).2 ∧
    ScoringJob.business_data job = business_data ∧
    ScoringJob.status job = "pending" ∧
    redis (submit_job self business_data w).2 !! ("queue:" +:+ queue_name self)
    = Some (RString seconds value).
Proof.
  intros Htimeout Hqueue.
  exists (ScoringJob.mk (format_uuid (entropy (host w))) business_data "pending"
            None None None (Some (clock (host w))) None).
  unfold submit_job, mbind, M_bind, with_host. cbn [uuid4 host set_host].
  rewrite new_job by apply format_uuid_not_empty. cbn [ScoringJob.id host set_host utcnow clock].
  rewrite setex_positive by lia. unfold lpush. cbn [redis log set_host].
  rewrite lookup_insert_ne by apply job_key_not_queue_key. rewrite Hqueue.
  cbn [fst snd]. repeat split.
  - unfold stored. cbn [redis log ScoringJob.id]. apply lookup_insert_eq.
  - cbn [redis log]. by rewrite lookup_insert_ne by apply job_key_not_queue_key.
Qed.

(** X7: with a [job_timeout] that is not positive Redis rejects the very
    first write: [submit_job] raises, nothing is stored and nothing is
    enqueued. *)
Theorem submit_job_rejected_ttl self business_data w :
  job_timeout self ≤ 0 →
  (∃ e, (submit_job self business_data w).1 = Raise e ∧ exn_type e = ResponseError) ∧
  redis (submit_job self business_data w).2 = redis w.
Proof.
  intros Htimeout.
  unfold submit_job, mbind, M_bind, with_host. cbn [uuid4 host set_host].
  destruct (ScoringJob.new _ _ _) as [job h]. cbn [host set_host].
  unfold setex. destruct (job_timeout self * 2 <=? 0) eqn:Httl; [|lia].
  cbn [fst snd]. split; [by eexists|reflexivity].
Qed.

End SubmissionFailures.

Lemma scoring_result_marks_completed_witness :
  ∃ job' w',
    _process_job run_score_business default_scorer (pending_job saas_company_a) empty_world
      = (Finished (Ok ()), job', w') ∧
    ScoringJob.status job' = "completed" ∧
    ScoringJob.score job' = Some 85%float ∧
    ScoringJob.reasoning job' = Some (_generate_reasoning 80 80 108 70 saas_company_a) ∧
    ScoringJob.completed_at job' = Some (clock leap_day_host) ∧
    ScoringJob.error job' = None ∧
    stored default_scorer job' w'.
Proof.
  apply (scoring_result_marks_completed run_score_business default_scorer
           (pending_job saas_company_a) empty_world
           (ScoreData 85 (_generate_reasoning 80 80 108 70 saas_company_a))).
  - reflexivity.
  - vm_compute. reflexivity.
Defined.

Lemma _process_job_rejected_ttl_witness :
  ∃ e job' w',
    _process_job run_score_business zero_timeout_scorer (pending_job saas_company_a)
      empty_world = (Finished (Raise e), job', w') ∧
    exn_type e = ResponseError ∧
    ScoringJob.status job' = "failed" ∧
    ScoringJob.error job' = Some (message e) ∧
    redis w' = redis empty_world ∧
    Forall (λ ev, match ev with Scoring _ => False | _ => True end)
           (drop (length (trace empty_world)) (trace w')).
Proof.
  apply (_process_job_rejected_ttl run_score_business zero_timeout_scorer
           (pending_job saas_company_a) empty_world).
  reflexivity.
Defined.

Lemma submit_job_not_atomic_witness :
  ∃ job,
    (submit_job default_scorer saas_company_a clobbered_world).1 = Raise WRONGTYPE ∧
    stored default_scorer job (submit_job default_scorer saas_company_a clobbered_world).2 ∧
    ScoringJob.business_data job = saas_company_a ∧
    ScoringJob.status job = "pending" ∧
    redis (submit_job default_scorer saas_company_a clobbered_world).2
      !! ("queue:" +:+ queue_name default_scorer) = Some (RString 60 (VStr "oops")).
Proof.
  apply (submit_job_not_atomic default_scorer saas_company_a clobbered_world 60 (VStr "oops")).
  - reflexivity.
  - reflexivity.
Defined.

Lemma submit_job_rejected_ttl_witness :
  (∃ e, (submit_job zero_timeout_scorer saas_company_a empty_world).1 = Raise e ∧
        exn_type e = ResponseError) ∧
  redis (submit_job zero_timeout_scorer saas_company_a empty_world).2 = redis empty_world.
Proof.
  apply (submit_job_rejected_ttl zero_timeout_scorer saas_company_a empty_world).
  discriminate.
Defined.

(** ** Batches *)

Section BatchProperties.

Context `{Json}.

Lemma submit_job_queue self business_data w job_id w' :
  submit_job self business_data w = (Ok job_id, w') →
  queue_items ("queue:" +:+ queue_name self) w' =
    job_id :: queue_items ("queue:" +:+ queue_name self) w ∧
  clock (host w') = clock (host w) ∧
  (∀ key, key ≠ "queue:" +:+ queue_name self → key ≠ "job:" +:+ job_id →
          redis w' !! key = redis w !! key).
Proof.
  intros Hsubmit. apply submit_job_Ok in Hsubmit as (_ & _ & Hredis & Hhost & _).
  split; [|split].
  - unfold queue_items at 1. by rewrite Hredis, lookup_insert_eq.
  - by rewrite Hhost.
  - intros key Hq Hj. rewrite Hredis. by rewrite !lookup_insert_ne.
Qed.

Lemma batch_submit_Ok self businesses w job_ids w' :
  batch_submit self businesses w = (Ok job_ids, w') →
  length job_ids = length businesses ∧
  queue_items ("queue:" +:+ queue_name self) w' =
    rev job_ids ++ queue_items ("queue:" +:+ queue_name self) w ∧
  clock (host w') = clock (host w) ∧
  (∀ key, key ≠ "queue:" +:+ queue_name self →
          (∀ job_id, job_id ∈ job_ids → key ≠ "job:" +:+ job_id) →
          redis w' !! key = redis w !! key).
Proof.
  revert w job_ids w'. induction businesses as [|business rest IH]; intros w job_ids w'.
  - intros [= <- <-]. by repeat split.
  - cbn [batch_submit]. unfold mbind at 1, M_bind at 1.
    destruct (submit_job self business w) as [[job_id|e] w1] eqn:Hsubmit; [|discriminate].
    unfold mbind at 1, M_bind at 1.
    destruct (batch_submit self rest w1) as [[ids|e] w2] eqn:Hrest; [|discriminate].
    intros [= <- <-]. apply submit_job_queue in Hsubmit as (Hq1 & Hc1 & Hk1).
    apply IH in Hrest as (Hlen & Hq2 & Hc2 & Hk2). split; [|split; [|split]].
    + simpl. by rewrite Hlen.
    + rewrite Hq2, Hq1. simpl. by rewrite <- app_assoc.
    + by rewrite Hc2.
    + intros key Hq Hj. rewrite Hk2, Hk1; try done.
      * apply Hj. by left.
      * intros id Hid. apply Hj. by right.
Qed.

Lemma drain_queue key job_ids w :
  queue_items key w = rev job_ids →
  (run_queue key (replicate (length job_ids) Dequeue) w).1 = job_ids.
Proof.
  revert w. induction job_ids as [|job_id job_ids IH]; intros w Hitems; [reflexivity|].
  cbn [length replicate run_queue]. simpl in Hitems.
  destruct (brpop_item key 1 w (rev job_ids) job_id Hitems) as (w' & -> & Hitems' & _).
  specialize (IH w' Hitems').
  destruct (run_queue key _ w') as [out w'']. simpl in *. by rewrite IH.
Qed.

(** X8: a [batch_submit] that succeeds returns one id for each business,
    and on a queue that was empty the consumer then receives exactly these
    ids, in the order of the businesses. *)
Theorem batch_submit_in_order self businesses w job_ids w' :
  redis w !! ("queue:" +:+ queue_name self) = None →
  batch_submit self businesses w = (Ok job_ids, w') →
  length job_ids = length businesses ∧
  (run_queue ("queue:" +:+ queue_name self) (replicate (length job_ids) Dequeue) w').1
  = job_ids.
Proof.
  intros Hempty Hbatch. apply batch_submit_Ok in Hbatch as (Hlen & Hitems & _).
  split; [exact Hlen|]. apply drain_queue. rewrite Hitems.
  unfold queue_items. rewrite Hempty. apply app_nil_r.
Qed.


End BatchProperties.

Lemma batch_submit_in_order_witness :
  length sample_ids = length sample_businesses ∧
  (run_queue ("queue:" +:+ queue_name default_scorer)
     (replicate (length sample_ids) Dequeue)
     (batch_submit default_scorer sample_businesses empty_world).2).1 = sample_ids.
Proof.
  apply (batch_submit_in_order default_scorer sample_businesses empty_world sample_ids).
  - reflexivity.
  - reflexivity.
Defined.


(** ** The worker loop *)

Section WorkerLoopProperties.

Context `{Json}.

Variable scorer : pydict → outcome.

Lemma worker_iteration_idle self w :
  redis w !! ("queue:" +:+ queue_name self) = None →
  worker_iteration scorer self w =
  (true, log (Brpop ("queue:" +:+ queue_name self) 1) w).
Proof.
  intros Hempty. unfold worker_iteration. rewrite brpop_empty; [done| |].
  - intros ??. by rewrite Hempty.
  - unfold queue_items. by rewrite Hempty.
Qed.

Lemma start_worker_idle_redis turns self w :
  redis w !! ("queue:" +:+ queue_name self) = None →
  redis (start_worker scorer turns self w).2 = redis w.
Proof.
  revert w. induction turns as [|turns IH]; intros w Hempty; [reflexivity|].
  cbn [start_worker]. rewrite worker_iteration_idle by exact Hempty.
  by rewrite IH.
Qed.

(** X10: on an empty queue the worker only polls: after any number of
    turns the loop is still alive, Redis is as it was, and the only
    commands sent are the [BRPOP]s, one for each turn. *)
Theorem start_worker_idle turns self w :
  redis w !! ("queue:" +:+ queue_name self) = None →
  (start_worker scorer turns self w).1 = true ∧
  redis (start_worker scorer turns self w).2 = redis w ∧
  trace (start_worker scorer turns self w).2 =
    trace w ++ replicate turns (Brpop ("queue:" +:+ queue_name self) 1).
Proof.
  revert w. induction turns as [|turns IH]; intros w Hempty.
  - repeat split. cbn [start_worker snd replicate]. by rewrite app_nil_r.
  - cbn [start_worker]. rewrite worker_iteration_idle by exact Hempty.
    destruct (IH (log (Brpop ("queue:" +:+ queue_name self) 1) w) Hempty)
      as (Halive & Hredis & Htrace).
    split; [exact Halive|]. split; [exact Hredis|].
    rewrite Htrace. cbn [trace log replicate]. by rewrite <- app_assoc.
Qed.

(** X11: when the id at the tail of the queue has no record in the store
    (it expired, say), the turn of the worker consumes the id, scores
    nothing, writes nothing, and the loop goes on. *)
Theorem worker_iteration_job_not_found self w waiting job_id :
  queue_items ("queue:" +:+ queue_name self) w = waiting ++ [job_id] →
  redis w !! ("job:" +:+ job_id) = None →
  (worker_iteration scorer self w).1 = true ∧
  queue_items ("queue:" +:+ queue_name self) (worker_iteration scorer self w).2 = waiting ∧
  trace (worker_iteration scorer self w).2 =
    trace w ++ [Brpop ("queue:" +:+ queue_name self) 1; Get ("job:" +:+ job_id)] ∧
  (∀ key, key ≠ "queue:" +:+ queue_name self →
          redis (worker_iteration scorer self w).2 !! key = redis w !! key).
Proof.
  intros Hitems Hmissing. unfold worker_iteration, brpop, queue_items in *.
  cbn [redis log] in *.
  destruct (redis w !! ("queue:" +:+ queue_name self)) as [[|items]|] eqn:Hqueue;
    try (by destruct waiting). subst items.
  destruct (pop_last (waiting ++ [job_id])) as [[init item]|] eqn:Hpop;
    [|apply pop_last_None in Hpop; by destruct waiting].
  apply pop_last_Some in Hpop. apply app_inj_tail in Hpop as [<- <-].
  assert (Hget : ∀ w0 : World,
            redis w0 !! ("job:" +:+ job_id) = None →
            get_job_status self job_id w0 = (Ok None, log (Get ("job:" +:+ job_id)) w0)).
  { intros w0 Hnone. unfold get_job_status, mbind, M_bind, get. cbn [redis log].
    by rewrite Hnone. }
  destruct waiting as [|first waiting].
  - rewrite Hget.
    + cbn [fst snd redis log set_redis trace]. rewrite lookup_delete_eq.
      repeat split; [by rewrite <- app_assoc|]. intros key Hkey.
      by rewrite lookup_delete_ne.
    + cbn [redis set_redis log].
      by rewrite lookup_delete_ne by (apply not_eq_sym, job_key_not_queue_key).
  - rewrite Hget.
    + cbn [fst snd redis log set_redis trace]. rewrite lookup_insert_eq.
      repeat split; [by rewrite <- app_assoc|]. intros key Hkey.
      by rewrite lookup_insert_ne.
    + cbn [redis set_redis log].
      by rewrite lookup_insert_ne by (apply not_eq_sym, job_key_not_queue_key).
Qed.

Lemma _process_job_other_keys self job w key :
  key ≠ "job:" +:+ ScoringJob.id job →
  redis (_process_job scorer self job w).2 !! key = redis w !! key.
Proof.
  intros Hkey. unfold _process_job, _update_job, setex.
  cbn [ScoringJob.set_status ScoringJob.id ScoringJob.business_data].
  destruct (job_timeout self * 2 <=? 0); [reflexivity|].
  destruct (scorer (ScoringJob.business_data job)) as [score_data|e|];
    cbn [snd redis log set_redis ScoringJob.set_completed_at ScoringJob.set_status
         ScoringJob.set_reasoning ScoringJob.set_score ScoringJob.set_error ScoringJob.id];
    by rewrite ?lookup_insert_ne by (by apply not_eq_sym).
Qed.

(** X12: a turn of the worker takes the oldest id off the queue and never
    puts an id back, whether the job is scored, fails, is not found or
    takes the process down with it: the queue after the turn is the queue
    before it without its tail. *)
Theorem worker_iteration_consumes_one self w :
  queue_items ("queue:" +:+ queue_name self) (worker_iteration scorer self w).2 =
  removelast (queue_items ("queue:" +:+ queue_name self) w).
Proof.
  set (queue_key := "queue:" +:+ queue_name self).
  assert (Hpopped : ∀ w0 : World, ∀ job_id,
            queue_items queue_key
              (match get_job_status self job_id w0 with
               | (Ok (Some job), w1) =>
                   match _process_job scorer self job w1 with
                   | (Died, _, w2) => (false, w2)
                   | (Finished _, _, w2) => (true, w2)
                   end
               | (_, w1) => (true, w1)
               end).2 = queue_items queue_key w0).
  { intros w0 job_id. pose proof (get_job_status_redis self job_id w0) as Hget.
    destruct (get_job_status self job_id w0) as [[[job|]|e] w1]; cbn [snd] in *;
      try (unfold queue_items; by rewrite Hget).
    assert (Hjob : queue_items queue_key (_process_job scorer self job w1).2 =
                   queue_items queue_key w0).
    { unfold queue_items. rewrite _process_job_other_keys, Hget; [done|].
      apply not_eq_sym, job_key_not_queue_key. }
    by destruct (_process_job scorer self job w1) as [[[r|] job'] w2]. }
  unfold worker_iteration. fold queue_key. unfold brpop. cbn [redis log].
  destruct (redis w !! queue_key) as [[seconds value|items]|] eqn:Hqueue.
  - unfold queue_items. cbn [snd redis log]. by rewrite Hqueue.
  - destruct (pop_last items) as [[init item]|] eqn:Hpop.
    + apply pop_last_Some in Hpop. subst items.
      assert (Hlast : removelast (queue_items queue_key w) = init).
      { unfold queue_items. rewrite Hqueue. apply removelast_last. }
      rewrite Hlast. destruct init as [|first init].
      * specialize (Hpopped (set_redis (delete queue_key (redis w))
                               (log (Brpop queue_key 1) w)) item).
        destruct (get_job_status self item _) as [[[job|]|e] w1]; rewrite Hpopped;
          unfold queue_items; cbn [redis set_redis]; by rewrite lookup_delete_eq.
      * specialize (Hpopped (set_redis (<[queue_key := RList (first :: init)]> (redis w))
                               (log (Brpop queue_key 1) w)) item).
        destruct (get_job_status self item _) as [[[job|]|e] w1]; rewrite Hpopped;
          unfold queue_items; cbn [redis set_redis]; by rewrite lookup_insert_eq.
    + apply pop_last_None in Hpop. subst items.
      unfold queue_items. cbn [snd redis log]. by rewrite Hqueue.
  - unfold queue_items. cbn [snd redis log]. by rewrite Hqueue.
Qed.

End WorkerLoopProperties.

Lemma start_worker_idle_witness :
  (start_worker run_score_business 3 default_scorer empty_world).1 = true ∧
  redis (start_worker run_score_business 3 default_scorer empty_world).2 = redis empty_world ∧
  trace (start_worker run_score_business 3 default_scorer empty_world).2 =
    trace empty_world ++ replicate 3 (Brpop ("queue:" +:+ queue_name default_scorer) 1).
Proof.
  apply (start_worker_idle run_score_business 3 default_scorer empty_world). reflexivity.
Defined.

Lemma worker_iteration_job_not_found_witness :
  (worker_iteration run_score_business default_scorer orphan_world).1 = true ∧
  queue_items ("queue:" +:+ queue_name default_scorer)
    (worker_iteration run_score_business default_scorer orphan_world).2 = [].
Proof.
  destruct (worker_iteration_job_not_found run_score_business default_scorer orphan_world
              [] "ghost" eq_refl eq_refl) as (Halive & Hqueue & _).
  exact (conj Halive Hqueue).
Defined.

(** ** From submission to result *)

Section Pipeline.

Context `{Json}.

Variable scorer : pydict → outcome.

(** The turn of the worker right after a [submit_job] on an empty queue:
    the id is popped, the job is loaded as it was submitted, its business
    data as JSON carries them, and [_process_job] runs on it. *)
Lemma worker_pops_submitted self business_data w job_id w1 :
  datetime_ok (clock (host w)) = true →
  redis w !! ("queue:" +:+ queue_name self) = None →
  submit_job self business_data w = (Ok job_id, w1) →
  let job := ScoringJob.mk job_id (as_json <$> business_data) "pending" None None None
               (Some (clock (host w))) None in
  let w2 := log (Get ("job:" +:+ job_id))
              (set_redis (delete ("queue:" +:+ queue_name self) (redis w1))
                 (log (Brpop ("queue:" +:+ queue_name self) 1) w1)) in
  worker_iteration scorer self w1 =
  (match (_process_job scorer self job w2).1.1 with Died => false | Finished _ => true end,
   (_process_job scorer self job w2).2) ∧
  0 < job_timeout self ∧
  clock (host w2) = clock (host w) ∧
  redis w2 !! ("queue:" +:+ queue_name self) = None.
Proof.
  intros Hclock Hempty Hsubmit. cbv zeta.
  apply submit_job_Ok in Hsubmit as (Hid & Httl & Hredis & Hhost & _).
  cbn [ScoringJob.id] in Hid. rewrite <- Hid in Hredis.
  assert (Hitems : queue_items ("queue:" +:+ queue_name self) w = [])
    by (unfold queue_items; by rewrite Hempty).
  rewrite Hitems in Hredis.
  set (job := ScoringJob.mk job_id business_data "pending" None None None
                (Some (clock (host w))) None).
  split; [|split; [lia|split]].
  - unfold worker_iteration, brpop. cbn [redis log]. rewrite Hredis.
    rewrite lookup_insert_eq. cbn [pop_last]. rewrite <- Hredis.
    match goal with |- context [get_job_status self job_id ?w0] => set (popped := w0) end.
    assert (Hstored : stored self job popped).
    { unfold stored, popped. cbn [redis set_redis ScoringJob.id job]. rewrite Hredis.
      rewrite lookup_delete_ne by (apply not_eq_sym, job_key_not_queue_key).
      rewrite lookup_insert_ne by (apply not_eq_sym, job_key_not_queue_key).
      by rewrite lookup_insert_eq. }
    assert (Hget : get_job_status self job_id popped =
                   (Ok (Some (as_loaded job)), log (Get ("job:" +:+ job_id)) popped)).
    { apply (get_job_status_stored self job popped Hstored).
      - split; intros d [= <-]. exact Hclock.
      - split; [cbn [ScoringJob.id job]; rewrite Hid; apply format_uuid_not_empty
               | by eexists]. }
    rewrite Hget. unfold as_loaded, job.
    cbn [ScoringJob.id ScoringJob.business_data ScoringJob.status ScoringJob.score
         ScoringJob.reasoning ScoringJob.error ScoringJob.created_at
         ScoringJob.completed_at].
    by destruct (_process_job scorer self _ _) as [[[r|] job'] w3].
  - cbn [host log set_redis]. by rewrite Hhost.
  - cbn [redis log set_redis]. apply lookup_delete_eq.
Qed.

(** X13: when the process dies while it scores a submitted job (the
    scoring function is called on the business data as JSON carries
    them), the id is gone from the queue and the record stays
    [processing]: no later run of the worker, with whatever scoring
    function, touches Redis again. *)
Theorem job_stuck_after_death self business_data w job_id w1 :
  datetime_ok (clock (host w)) = true →
  redis w !! ("queue:" +:+ queue_name self) = None →
  submit_job self business_data w = (Ok job_id, w1) →
  scorer (as_json <$> business_data) = Killed →
  let job := ScoringJob.mk job_id (as_json <$> business_data) "processing" None None None
               (Some (clock (host w))) None in
  let w2 := (worker_iteration scorer self w1).2 in
  (worker_iteration scorer self w1).1 = false ∧
  queue_items ("queue:" +:+ queue_name self) w2 = [] ∧
  stored self job w2 ∧
  (∀ scorer' turns, redis (start_worker scorer' turns self w2).2 = redis w2).
Proof.
  intros Hclock Hempty Hsubmit Hkilled. cbv zeta.
  destruct (worker_pops_submitted self business_data w job_id w1 Hclock Hempty Hsubmit)
    as (-> & Htimeout & _ & Hqueue).
  rewrite (_process_job_run scorer) by exact Htimeout.
  cbn [ScoringJob.business_data ScoringJob.id ScoringJob.set_status]. rewrite Hkilled.
  cbn [fst snd].
  cbn [redis log set_redis] in Hqueue.
  split; [reflexivity|]. split; [|split].
  - unfold queue_items. cbn [redis log set_redis].
    rewrite lookup_insert_ne by apply job_key_not_queue_key. by rewrite Hqueue.
  - unfold stored. cbn [redis ScoringJob.id]. apply lookup_insert_eq.
  - intros scorer' turns. apply start_worker_idle_redis. cbn [redis log set_redis].
    rewrite lookup_insert_ne by apply job_key_not_queue_key. exact Hqueue.
Qed.


End Pipeline.

Lemma job_stuck_after_death_witness :
  let w1 := (submit_job default_scorer saas_company_a empty_world).2 in
  let w2 := (worker_iteration (λ _, Killed) default_scorer w1).2 in
  (worker_iteration (λ _, Killed) default_scorer w1).1 = false ∧
  queue_items ("queue:" +:+ queue_name default_scorer) w2 = [].
Proof.
  destruct (job_stuck_after_death (λ _, Killed) default_scorer saas_company_a empty_world
              "00000000-27e4-4b32-86be-c9b16e398115"
              (submit_job default_scorer saas_company_a empty_world).2)
    as (Hdead & Hqueue & _).
  - reflexivity.
  - reflexivity.
  - reflexivity.
  - reflexivity.
  - exact (conj Hdead Hqueue).
Defined.


(** ** The scorer, further *)

Lemma lt_int_Ok_number v n b : lt_int v n = Ok b → is_number v = true.
Proof. by destruct v. Qed.

Lemma lt_int_error v n e : lt_int v n = Raise e → exn_type e = TypeError.
Proof. destruct v; try discriminate; by intros [= <-]. Qed.

Lemma multiplier_get_error industry e :
  multiplier_get industry = Raise e → exn_type e = TypeError.
Proof.
  destruct industry as [| | | |s|l|l|d]; try discriminate; try by intros [= <-].
  cbn [multiplier_get]. destruct (unhashable (VTuple l)); [by intros [= <-]|discriminate].
Qed.

Lemma multiplier_get_Ok_hashable industry m :
  multiplier_get industry = Ok m → hashable industry = true.
Proof.
  unfold hashable. destruct industry as [| | | |s|l|l|d]; try done.
  cbn [multiplier_get]. by destruct (unhashable (VTuple l)).
Qed.

(** Splits a hypothesis [m ≫= f = Raise e] into the step that raised. *)
Ltac invert_Raise H :=
  repeat match type of H with
  | mbind _ ?m = Raise _ =>
      let b := fresh "b" in
      let e' := fresh "e" in
      let Hstep := fresh "Hstep" in
      destruct m as [b|e'] eqn:Hstep;
        [cbn [mbind result_bind] in H; try destruct b
        |injection H as <-]
  | mret _ = Raise _ => discriminate H
  | Ok _ = Raise _ => discriminate H
  end.

Lemma _score_revenue_error revenue profit e :
  _score_revenue revenue profit = Raise e → exn_type e = TypeError.
Proof.
  unfold _score_revenue. intros He. invert_Raise He; by eapply lt_int_error.
Qed.

Lemma _score_growth_error growth_rate e :
  _score_growth growth_rate = Raise e → exn_type e = TypeError.
Proof.
  unfold _score_growth. intros He. invert_Raise He; by eapply lt_int_error.
Qed.

Lemma _score_experience_error years e :
  _score_experience years = Raise e → exn_type e = TypeError.
Proof.
  unfold _score_experience. intros He. invert_Raise He; by eapply lt_int_error.
Qed.

Lemma _score_market_error market_size industry e :
  _score_market market_size industry = Raise e → exn_type e = TypeError.
Proof.
  unfold _score_market. intros He.
  destruct (multiplier_get industry) as [mul|e'] eqn:Hmul.
  - cbn [mbind result_bind] in He. invert_Raise He; by eapply lt_int_error.
  - injection He as <-. by eapply multiplier_get_error.
Qed.

(** X15: [_score_business] returns exactly when each numeric field it
    reads is absent or a number and the industry can be hashed; otherwise
    it raises, and what it raises is always a [TypeError]. *)
Theorem _score_business_returns_iff business_data :
  ((∃ sd, _score_business business_data = Ok sd) ↔
   is_number (dict_get business_data "monthly_revenue" (VInt 0)) = true ∧
   is_number (dict_get business_data "growth_rate" (VInt 0)) = true ∧
   is_number (dict_get business_data "market_size" (VInt 0)) = true ∧
   is_number (dict_get business_data "years_operated" (VInt 0)) = true ∧
   hashable (dict_get business_data "industry" (VStr "General")) = true) ∧
  (∀ e, _score_business business_data = Raise e → exn_type e = TypeError).
Proof.
  split; [split|].
  - intros [sd Hsd]. unfold _score_business in Hsd.
    apply bind_Ok in Hsd as (r & Hr & Hsd). apply bind_Ok in Hsd as (g & Hg & Hsd).
    apply bind_Ok in Hsd as (m & Hm & Hsd). apply bind_Ok in Hsd as (e & He & _).
    unfold _score_revenue in Hr. apply bind_Ok in Hr as (b1 & Hr & _).
    unfold _score_growth in Hg. apply bind_Ok in Hg as (b2 & Hg & _).
    unfold _score_market in Hm. apply bind_Ok in Hm as (mul & Hmul & Hm).
    apply bind_Ok in Hm as (b3 & Hm & _).
    unfold _score_experience in He. apply bind_Ok in He as (b4 & He & _).
    eauto 10 using lt_int_Ok_number, multiplier_get_Ok_hashable.
  - intros (Hr & Hg & Hm & He & Hi). by apply _score_business_returns.
  - intros e He. unfold _score_business in He.
    destruct (_score_revenue _ _) as [r|e1] eqn:Hr;
      [|injection He as <-; by eapply _score_revenue_error].
    cbn [mbind result_bind] in He.
    destruct (_score_growth _) as [g|e2] eqn:Hg;
      [|injection He as <-; by eapply _score_growth_error].
    cbn [mbind result_bind] in He.
    destruct (_score_market _ _) as [m|e3] eqn:Hm;
      [|injection He as <-; by eapply _score_market_error].
    cbn [mbind result_bind] in He.
    destruct (_score_experience _) as [x|e4] eqn:Hx;
      [|injection He as <-; by eapply _score_experience_error].
    discriminate.
Qed.

Lemma _score_business_returns_iff_witness :
  ∃ sd, _score_business ecommerce_business_b = Ok sd.
Proof.
  apply (proj2 (proj1 (_score_business_returns_iff ecommerce_business_b))).
  repeat split.
Defined.

(** X17: [_score_business] reads five keys and nothing else: setting any
    other key, [monthly_profit] and [name] among them, to any value at
    all changes neither the score, nor the reasoning, nor the error. *)
Theorem _score_business_ignores_other_keys business_data key v :
  key ∉ scored_fields →
  _score_business (<[key := v]> business_data) = _score_business business_data.
Proof.
  intros Hkey. unfold scored_fields in Hkey.
  assert (Hget : ∀ field dflt, field ∈ scored_fields →
            dict_get (<[key := v]> business_data) field dflt = dict_get business_data field dflt).
  { intros field dflt Hfield. unfold dict_get. rewrite lookup_insert_ne; [done|].
    intros ->. by apply Hkey. }
  unfold _score_business.
  rewrite !Hget by (unfold scored_fields; set_solver).
  unfold _score_revenue. reflexivity.
Qed.

Lemma _score_business_ignores_other_keys_witness :
  _score_business (<["monthly_profit" := VStr "unknown"]> saas_company_a)
  = _score_business saas_company_a.
Proof.
  apply (_score_business_ignores_other_keys saas_company_a "monthly_profit" (VStr "unknown")).
  apply (bool_decide_unpack ("monthly_profit" ∉ scored_fields)). vm_compute. exact I.
Defined.

Lemma monotone_in_revenue_holds :
  forallb (λ r1, forallb (λ r2, forallb (λ g, forallb (λ m, forallb (λ e,
    implb (r1 <=? r2) (score_of r1 g m e <=? score_of r2 g m e)%float)
    experience_scores) market_scores) growth_scores) revenue_scores) revenue_scores = true.
Proof. vm_compute. reflexivity. Qed.

Lemma monotone_in_growth_holds :
  forallb (λ g1, forallb (λ g2, forallb (λ r, forallb (λ m, forallb (λ e,
    implb (g1 <=? g2) (score_of r g1 m e <=? score_of r g2 m e)%float)
    experience_scores) market_scores) revenue_scores) growth_scores) growth_scores = true.
Proof. vm_compute. reflexivity. Qed.

Lemma monotone_in_experience_holds :
  forallb (λ e1, forallb (λ e2, forallb (λ r, forallb (λ g, forallb (λ m,
    implb (e1 <=? e2) (score_of r g m e1 <=? score_of r g m e2)%float)
    market_scores) growth_scores) revenue_scores) experience_scores) experience_scores = true.
Proof. vm_compute. reflexivity. Qed.

Lemma monotone_in_market_holds :
  forallb (λ mul, forallb (λ b1, forallb (λ b2, forallb (λ r, forallb (λ g, forallb (λ e,
    implb (b1 <=? b2)
      (score_of r g (float_of_int b1 * mul) e <=? score_of r g (float_of_int b2 * mul) e)%float)
    experience_scores) growth_scores) revenue_scores) [30; 50; 70; 90]) [30; 50; 70; 90])
    multipliers = true.
Proof. vm_compute. reflexivity. Qed.

Lemma revenue_monotone_spec r1 r2 g m e :
  In r1 revenue_scores → In r2 revenue_scores → In g growth_scores →
  In m market_scores → In e experience_scores → r1 ≤ r2 →
  (score_of r1 g m e <=? score_of r2 g m e)%float = true.
Proof.
  intros Ir1 Ir2 Ig Im Ie Hle.
  pose proof monotone_in_revenue_holds as Hall.
  rewrite forallb_forall in Hall. specialize (Hall r1 Ir1).
  rewrite forallb_forall in Hall. specialize (Hall r2 Ir2).
  rewrite forallb_forall in Hall. specialize (Hall g Ig).
  rewrite forallb_forall in Hall. specialize (Hall m Im).
  rewrite forallb_forall in Hall. specialize (Hall e Ie).
  apply Z.leb_le in Hle. rewrite Hle in Hall. exact Hall.
Qed.

Lemma growth_monotone_spec g1 g2 r m e :
  In g1 growth_scores → In g2 growth_scores → In r revenue_scores →
  In m market_scores → In e experience_scores → g1 ≤ g2 →
  (score_of r g1 m e <=? score_of r g2 m e)%float = true.
Proof.
  intros Ig1 Ig2 Ir Im Ie Hle.
  pose proof monotone_in_growth_holds as Hall.
  rewrite forallb_forall in Hall. specialize (Hall g1 Ig1).
  rewrite forallb_forall in Hall. specialize (Hall g2 Ig2).
  rewrite forallb_forall in Hall. specialize (Hall r Ir).
  rewrite forallb_forall in Hall. specialize (Hall m Im).
  rewrite forallb_forall in Hall. specialize (Hall e Ie).
  apply Z.leb_le in Hle. rewrite Hle in Hall. exact Hall.
Qed.

Lemma experience_monotone_spec e1 e2 r g m :
  In e1 experience_scores → In e2 experience_scores → In r revenue_scores →
  In g growth_scores → In m market_scores → e1 ≤ e2 →
  (score_of r g m e1 <=? score_of r g m e2)%float = true.
Proof.
  intros Ie1 Ie2 Ir Ig Im Hle.
  pose proof monotone_in_experience_holds as Hall.
  rewrite forallb_forall in Hall. specialize (Hall e1 Ie1).
  rewrite forallb_forall in Hall. specialize (Hall e2 Ie2).
  rewrite forallb_forall in Hall. specialize (Hall r Ir).
  rewrite forallb_forall in Hall. specialize (Hall g Ig).
  rewrite forallb_forall in Hall. specialize (Hall m Im).
  apply Z.leb_le in Hle. rewrite Hle in Hall. exact Hall.
Qed.

Lemma market_monotone_spec mul b1 b2 r g e :
  In mul multipliers → In b1 [30; 50; 70; 90] → In b2 [30; 50; 70; 90] →
  In r revenue_scores → In g growth_scores → In e experience_scores → b1 ≤ b2 →
  (score_of r g (float_of_int b1 * mul) e <=? score_of r g (float_of_int b2 * mul) e)%float
  = true.
Proof.
  intros Imul Ib1 Ib2 Ir Ig Ie Hle.
  pose proof monotone_in_market_holds as Hall.
  rewrite forallb_forall in Hall. specialize (Hall mul Imul).
  rewrite forallb_forall in Hall. specialize (Hall b1 Ib1).
  rewrite forallb_forall in Hall. specialize (Hall b2 Ib2).
  rewrite forallb_forall in Hall. specialize (Hall r Ir).
  rewrite forallb_forall in Hall. specialize (Hall g Ig).
  rewrite forallb_forall in Hall. specialize (Hall e Ie).
  apply Z.leb_le in Hle. rewrite Hle in Hall. exact Hall.
Qed.

(** Decides the thresholds of an integer field, leaving linear goals. *)
Ltac by_thresholds :=
  cbn [lt_int mbind result_bind mret result_ret];
  repeat match goal with
  | |- context [?a <? ?b] =>
      destruct (Z.ltb_spec a b); cbn [mbind result_bind mret result_ret]
  end;
  intros; unfold mret, result_ret in *; simplify_eq; try lia.

Lemma _score_revenue_monotone n1 n2 p1 p2 s1 s2 :
  n1 ≤ n2 →
  _score_revenue (VInt n1) p1 = Ok s1 → _score_revenue (VInt n2) p2 = Ok s2 → s1 ≤ s2.
Proof. intros Hle. unfold _score_revenue. by_thresholds. Qed.

Lemma _score_growth_monotone n1 n2 s1 s2 :
  n1 ≤ n2 →
  _score_growth (VInt n1) = Ok s1 → _score_growth (VInt n2) = Ok s2 → s1 ≤ s2.
Proof. intros Hle. unfold _score_growth. by_thresholds. Qed.

Lemma _score_experience_monotone n1 n2 s1 s2 :
  n1 ≤ n2 →
  _score_experience (VInt n1) = Ok s1 → _score_experience (VInt n2) = Ok s2 → s1 ≤ s2.
Proof. intros Hle. unfold _score_experience. by_thresholds. Qed.

Lemma _score_market_monotone n1 n2 industry m1 m2 :
  n1 ≤ n2 →
  _score_market (VInt n1) industry = Ok m1 → _score_market (VInt n2) industry = Ok m2 →
  ∃ mul b1 b2,
    In mul multipliers ∧ In b1 [30; 50; 70; 90] ∧ In b2 [30; 50; 70; 90] ∧ b1 ≤ b2 ∧
    m1 = (float_of_int b1 * mul)%float ∧ m2 = (float_of_int b2 * mul)%float.
Proof.
  intros Hle. unfold _score_market.
  destruct (multiplier_get industry) as [mul|e] eqn:Hmul; [|discriminate].
  apply multiplier_get_range in Hmul.
  cbn [lt_int mbind result_bind mret result_ret].
  repeat match goal with
  | |- context [?a <? ?b] =>
      destruct (Z.ltb_spec a b); cbn [mbind result_bind mret result_ret]
  end;
    unfold mret, result_ret; intros [= <-] [= <-]; try lia;
    eexists mul, _, _; (split; [exact Hmul|]);
    (split; [|split; [|split; [|split; reflexivity]]]); simpl; try tauto; lia.
Qed.

Lemma dict_get_insert_eq (d : pydict) key v dflt : dict_get (<[key := v]> d) key dflt = v.
Proof. unfold dict_get. by rewrite lookup_insert_eq. Qed.

Lemma dict_get_insert_ne (d : pydict) key key' v dflt :
  key ≠ key' → dict_get (<[key := v]> d) key' dflt = dict_get d key' dflt.
Proof. intros Hne. unfold dict_get. by rewrite lookup_insert_ne. Qed.

(** Reads the fields of a business in which one key was set. *)
Ltac read_fields :=
  repeat match goal with
  | H : context [dict_get (<[?k := _]> _) ?k _] |- _ => rewrite dict_get_insert_eq in H
  | H : context [dict_get (<[_ := _]> _) _ _] |- _ =>
      rewrite dict_get_insert_ne in H by done
  end.

(** X16: raising one of the integer fields [monthly_revenue],
    [growth_rate], [market_size] or [years_operated] of a business, the
    rest being equal, never lowers its score. *)
Theorem higher_input_never_lowers_score business_data field n1 n2 sd1 sd2 :
  In field numeric_fields → n1 ≤ n2 →
  _score_business (<[field := VInt n1]> business_data) = Ok sd1 →
  _score_business (<[field := VInt n2]> business_data) = Ok sd2 →
  (sd_score sd1 <=? sd_score sd2)%float = true.
Proof.
  intros Hfield Hle H1 H2.
  apply _score_business_inv in H1 as (r1 & g1 & m1 & e1 & (Hr1 & Hg1 & Hm1 & He1 & _ & ->) & _).
  apply _score_business_inv in H2 as (r2 & g2 & m2 & e2 & (Hr2 & Hg2 & Hm2 & He2 & _ & ->) & _).
  pose proof (_score_revenue_range _ _ _ Hr1) as Ir1.
  pose proof (_score_revenue_range _ _ _ Hr2) as Ir2.
  pose proof (_score_growth_range _ _ Hg1) as Ig1.
  pose proof (_score_growth_range _ _ Hg2) as Ig2.
  pose proof (_score_market_range _ _ _ Hm1) as Im1.
  pose proof (_score_experience_range _ _ He1) as Ie1.
  pose proof (_score_experience_range _ _ He2) as Ie2.
  fold (score_of r1 g1 m1 e1). fold (score_of r2 g2 m2 e2).
  unfold numeric_fields in Hfield. simpl in Hfield.
  destruct Hfield as [<-|[<-|[<-|[<-|[]]]]]; read_fields.
  - assert (g2 = g1) as -> by congruence. assert (m2 = m1) as -> by congruence.
    assert (e2 = e1) as -> by congruence.
    apply revenue_monotone_spec; try assumption.
    exact (_score_revenue_monotone _ _ _ _ _ _ Hle Hr1 Hr2).
  - assert (r2 = r1) as -> by congruence. assert (m2 = m1) as -> by congruence.
    assert (e2 = e1) as -> by congruence.
    apply growth_monotone_spec; try assumption.
    exact (_score_growth_monotone _ _ _ _ Hle Hg1 Hg2).
  - assert (r2 = r1) as -> by congruence. assert (g2 = g1) as -> by congruence.
    assert (e2 = e1) as -> by congruence.
    destruct (_score_market_monotone _ _ _ _ _ Hle Hm1 Hm2)
      as (mul & b1 & b2 & Imul & Ib1 & Ib2 & Hs & -> & ->).
    by apply market_monotone_spec.
  - assert (r2 = r1) as -> by congruence. assert (g2 = g1) as -> by congruence.
    assert (m2 = m1) as -> by congruence.
    apply experience_monotone_spec; try assumption.
    exact (_score_experience_monotone _ _ _ _ Hle He1 He2).
Qed.

Lemma higher_input_never_lowers_score_witness :
  (85 <=? 89.5)%float = true.
Proof.
  apply (higher_input_never_lowers_score saas_company_a "monthly_revenue" 25000 60000
           (ScoreData 85 (_generate_reasoning 80 80 108 70 saas_company_a))
           (ScoreData 89.5 (_generate_reasoning 95 80 108 70 saas_company_a))).
  - simpl. tauto.
  - lia.
  - vm_compute. reflexivity.
  - vm_compute. reflexivity.
Defined.

(** ** Queue statistics *)

Section StatsProperties.

Context `{Json}.

Lemma keys_job_In (r : gmap string redis_value) job_key :
  In job_key (keys_job r) ↔ String.prefix "job:" job_key = true ∧ is_Some (r !! job_key).
Proof.
  unfold keys_job. rewrite filter_In, <- list_elem_of_In, list_elem_of_fmap. split.
  - intros [([k v] & -> & Hin) Hprefix]. apply elem_of_map_to_list in Hin.
    split; [exact Hprefix | by eexists].
  - intros [Hprefix [v Hv]]. split; [|exact Hprefix].
    exists (job_key, v). split; [reflexivity | by apply elem_of_map_to_list].
Qed.

Lemma NoDup_List_filter {A : Type} (f : A → bool) (l : list A) :
  NoDup l → NoDup (List.filter f l).
Proof.
  induction 1 as [|a l Ha _ IH]; cbn [List.filter]; [constructor|].
  destruct (f a); [|exact IH]. constructor; [|exact IH].
  rewrite list_elem_of_In, filter_In. intros [Hin _]. by apply Ha, list_elem_of_In.
Qed.

Lemma keys_job_NoDup (r : gmap string redis_value) : NoDup (keys_job r).
Proof. unfold keys_job. apply NoDup_List_filter, NoDup_fst_map_to_list. Qed.

Lemma filter_Permutation_length {A : Type} (f : A → bool) (l l' : list A) :
  l ≡ₚ l' → length (List.filter f l) = length (List.filter f l').
Proof.
  induction 1 as [|x l l' _ IH|x y l|l l' l'' _ IH1 _ IH2]; cbn [List.filter].
  - reflexivity.
  - destruct (f x); cbn [length]; by rewrite IH.
  - by destruct (f x), (f y).
  - by rewrite IH1.
Qed.

Lemma tally_fields status stats :
  pending_jobs (tally status stats) = pending_jobs stats ∧
  total_jobs (tally status stats) = total_jobs stats ∧
  completed_jobs (tally status stats) =
    completed_jobs stats + Z.b2z (eq_str status "completed") ∧
  failed_jobs (tally status stats) = failed_jobs stats + Z.b2z (eq_str status "failed") ∧
  processing_jobs (tally status stats) =
    processing_jobs stats + Z.b2z (eq_str status "processing").
Proof.
  unfold tally, eq_str. destruct status as [| | | |s| | |]; cbn; try lia.
  destruct (String.eqb_spec s "completed") as [->|]; [cbn; lia|].
  destruct (String.eqb_spec s "failed") as [->|]; [cbn; lia|].
  destruct (String.eqb_spec s "processing") as [->|]; cbn; lia.
Qed.

Lemma QueueStats_eq (s1 s2 : QueueStats) :
  pending_jobs s1 = pending_jobs s2 → total_jobs s1 = total_jobs s2 →
  completed_jobs s1 = completed_jobs s2 → failed_jobs s1 = failed_jobs s2 →
  processing_jobs s1 = processing_jobs s2 → s1 = s2.
Proof. destruct s1, s2. cbn. by intros -> -> -> -> ->. Qed.

(** What the loop leaves in the counters when it ends normally. *)
Lemma count_jobs_Ok (r : gmap string redis_value) job_keys stats stats' :
  count_jobs r job_keys stats = Ok stats' →
  Forall (λ job_key, ∃ status, job_status r job_key = Ok status) job_keys ∧
  pending_jobs stats' = pending_jobs stats ∧
  total_jobs stats' = total_jobs stats ∧
  completed_jobs stats' =
    completed_jobs stats + Z.of_nat (length (List.filter (counts_as r "completed") job_keys)) ∧
  failed_jobs stats' =
    failed_jobs stats + Z.of_nat (length (List.filter (counts_as r "failed") job_keys)) ∧
  processing_jobs stats' =
    processing_jobs stats + Z.of_nat (length (List.filter (counts_as r "processing") job_keys)).
Proof.
  revert stats. induction job_keys as [|job_key rest IH]; intros stats Hcount.
  - injection Hcount as <-. cbn [List.filter length Z.of_nat]. repeat split; first [lia | constructor].
  - cbn [count_jobs] in Hcount. apply bind_Ok in Hcount as (status & Hstatus & Hcount).
    apply IH in Hcount as (Hall & Hp & Ht & Hc & Hf & Hpr).
    destruct (tally_fields status stats) as (Hp' & Ht' & Hc' & Hf' & Hpr').
    split; [constructor; [by eexists | exact Hall]|].
    assert (Hcounts : ∀ s, counts_as r s job_key = eq_str status s)
      by (intros s; unfold counts_as; by rewrite Hstatus).
    cbn [List.filter]. rewrite !Hcounts.
    repeat split; [congruence | congruence |..].
    + rewrite Hc, Hc'. destruct (eq_str status "completed"); cbn [length Z.b2z]; lia.
    + rewrite Hf, Hf'. destruct (eq_str status "failed"); cbn [length Z.b2z]; lia.
    + rewrite Hpr, Hpr'. destruct (eq_str status "processing"); cbn [length Z.b2z]; lia.
Qed.

(** The loop ends normally when every record can be read. *)
Lemma count_jobs_returns (r : gmap string redis_value) job_keys stats :
  Forall (λ job_key, ∃ status, job_status r job_key = Ok status) job_keys →
  ∃ stats', count_jobs r job_keys stats = Ok stats'.
Proof.
  intros Hall. revert stats. induction Hall as [|job_key rest [status Hstatus] _ IH];
    intros stats.
  - by eexists.
  - cbn [count_jobs]. rewrite Hstatus. apply IH.
Qed.

Lemma job_status_Ok (r : gmap string redis_value) job_key status :
  job_status r job_key = Ok status ↔
  ∃ seconds t d, r !! job_key = Some (RString seconds t) ∧ json_loads t = Ok (VDict d) ∧
                 status = dict_get d "status" (VStr "unknown").
Proof.
  unfold job_status, get_answer. split.
  - destruct (r !! job_key) as [[seconds t|items]|]; [|discriminate..].
    cbn [mbind result_bind]. destruct (json_loads t) as [[]|] eqn:Hloads; try discriminate.
    intros [= <-]. by eexists _, _, _.
  - intros (seconds & t & d & -> & Hloads & ->). cbn [mbind result_bind].
    by rewrite Hloads.
Qed.

Lemma three_filters_le {A : Type} (f g h : A → bool) (l : list A) :
  (∀ a, f a = true → g a = false ∧ h a = false) → (∀ a, g a = true → h a = false) →
  (length (List.filter f l) + length (List.filter g l) + length (List.filter h l)
   ≤ length l)%nat.
Proof.
  intros Hf Hg. induction l as [|a l IH]; [reflexivity|]. cbn [List.filter].
  destruct (f a) eqn:Ef.
  - destruct (Hf a Ef) as [-> ->]. cbn [length]. lia.
  - destruct (g a) eqn:Eg.
    + rewrite (Hg a Eg). cbn [length]. lia.
    + destruct (h a); cbn [length]; lia.
Qed.

Lemma counts_as_exclusive (r : gmap string redis_value) s1 s2 job_key :
  s1 ≠ s2 → counts_as r s1 job_key = true → counts_as r s2 job_key = false.
Proof.
  unfold counts_as. destruct (job_status r job_key) as [status|]; [|done].
  unfold eq_str. destruct status; try done.
  intros Hne ->%String.eqb_eq. by apply String.eqb_neq.
Qed.

(** X18: when [get_queue_stats] returns, [pending_jobs] is the length of
    the queue, [total_jobs] the number of keys that start with [job:],
    and each of the three other counters the number of those records with
    that status; a record with any other status, [pending] included, is
    counted in the total only, so the three counters add up to at most
    the total. *)
Theorem get_queue_stats_counts self (w : World) stats :
  get_queue_stats self (redis w) = Ok stats →
  pending_jobs stats = Z.of_nat (length (queue_items ("queue:" +:+ queue_name self) w)) ∧
  total_jobs stats = Z.of_nat (length (keys_job (redis w))) ∧
  completed_jobs stats = Z.of_nat (length (with_status "completed" (redis w))) ∧
  failed_jobs stats = Z.of_nat (length (with_status "failed" (redis w))) ∧
  processing_jobs stats = Z.of_nat (length (with_status "processing" (redis w))) ∧
  completed_jobs stats + failed_jobs stats + processing_jobs stats ≤ total_jobs stats.
Proof.
  unfold get_queue_stats. intros Hstats.
  apply bind_Ok in Hstats as (pending_count & Hllen & Hcount).
  apply count_jobs_Ok in Hcount as (_ & Hp & Ht & Hc & Hf & Hpr).
  cbn [pending_jobs total_jobs completed_jobs failed_jobs processing_jobs] in *.
  assert (Hpending : pending_count =
            Z.of_nat (length (queue_items ("queue:" +:+ queue_name self) w))).
  { unfold llen in Hllen. unfold queue_items.
    destruct (redis w !! _) as [[]|]; by inversion Hllen. }
  fold (with_status "completed" (redis w)) in Hc.
  fold (with_status "failed" (redis w)) in Hf.
  fold (with_status "processing" (redis w)) in Hpr.
  assert (Hle : (length (with_status "completed" (redis w)) +
                  length (with_status "failed" (redis w)) +
                  length (with_status "processing" (redis w))
                  ≤ length (keys_job (redis w)))%nat).
  { apply three_filters_le.
    - intros a Ha. split; by apply (counts_as_exclusive _ "completed").
    - intros a Ha. by apply (counts_as_exclusive _ "failed"). }
  repeat split; lia.
Qed.

Lemma job_status_ext (r r' : gmap string redis_value) job_key :
  r' !! job_key = r !! job_key → job_status r' job_key = job_status r job_key.
Proof. intros Heq. unfold job_status, get_answer. by rewrite Heq. Qed.

Lemma job_status_stored (r : gmap string redis_value) job seconds :
  r !! ("job:" +:+ ScoringJob.id job) =
    Some (RString seconds (json_dumps (VDict (ScoringJob.to_dict job)))) →
  job_status r ("job:" +:+ ScoringJob.id job) = Ok (VStr (ScoringJob.status job)).
Proof.
  intros Hstored. apply job_status_Ok.
  exists seconds, (json_dumps (VDict (ScoringJob.to_dict job))),
    (as_json <$> ScoringJob.to_dict job).
  split; [exact Hstored|]. split; [apply json_loads_dumps|].
  unfold dict_get. rewrite lookup_fmap.
  destruct (to_dict_lookups job) as (_ & _ & -> & _). reflexivity.
Qed.

Lemma job_key_prefix job_id : String.prefix "job:" ("job:" +:+ job_id) = true.
Proof. rewrite !append_String, append_empty. cbn. by destruct job_id. Qed.

Lemma queue_key_prefix name : String.prefix "job:" ("queue:" +:+ name) = false.
Proof. rewrite !append_String. reflexivity. Qed.

Lemma keys_job_one_more r r' job :
  one_more_record r r' job →
  keys_job r' ≡ₚ ("job:" +:+ ScoringJob.id job) :: keys_job r.
Proof.
  intros (Hfresh & [seconds Hrecord] & Hrest). apply NoDup_Permutation.
  - apply keys_job_NoDup.
  - constructor; [|apply keys_job_NoDup].
    rewrite list_elem_of_In, keys_job_In, Hfresh. by intros [_ []].
  - intros job_key. rewrite elem_of_cons, !list_elem_of_In, !keys_job_In.
    destruct (decide (job_key = "job:" +:+ ScoringJob.id job)) as [->|Hne].
    + rewrite Hrecord. split; [by left|]. intros _. split; [apply job_key_prefix | by eexists].
    + split.
      * intros [Hprefix Hsome]. right. by rewrite <- (Hrest job_key Hprefix Hne).
      * intros [|[Hprefix Hsome]]; [done|]. by rewrite (Hrest job_key Hprefix Hne).
Qed.

Lemma one_more_record_status r r' job job_key :
  one_more_record r r' job → In job_key (keys_job r) →
  job_status r' job_key = job_status r job_key.
Proof.
  intros (Hfresh & _ & Hrest) [Hprefix Hsome]%keys_job_In.
  apply job_status_ext, Hrest; [exact Hprefix|]. intros ->. rewrite Hfresh in Hsome.
  by destruct Hsome.
Qed.

Lemma counts_one_more r r' job s :
  one_more_record r r' job →
  Z.of_nat (length (List.filter (counts_as r' s) (keys_job r'))) =
  Z.of_nat (length (List.filter (counts_as r s) (keys_job r))) +
  Z.b2z (eq_str (VStr (ScoringJob.status job)) s).
Proof.
  intros Hmore. rewrite (filter_Permutation_length _ _ _ (keys_job_one_more r r' job Hmore)).
  cbn [List.filter].
  assert (Hnew : counts_as r' s ("job:" +:+ ScoringJob.id job) =
                 eq_str (VStr (ScoringJob.status job)) s).
  { destruct Hmore as (_ & [seconds Hrecord] & _). unfold counts_as.
    by rewrite (job_status_stored r' job seconds Hrecord). }
  rewrite Hnew.
  rewrite (filter_ext_in (counts_as r' s) (counts_as r s)).
  - destruct (eq_str _ s); cbn [length Z.b2z]; lia.
  - intros job_key Hin. unfold counts_as.
    by rewrite (one_more_record_status r r' job job_key Hmore Hin).
Qed.

(** The statistics of a store with one more record. *)
Lemma get_queue_stats_one_more self r r' job stats pending_count :
  one_more_record r r' job →
  llen ("queue:" +:+ queue_name self) r' = Ok pending_count →
  get_queue_stats self r = Ok stats →
  get_queue_stats self r' =
  Ok (tally (VStr (ScoringJob.status job))
        {| pending_jobs := pending_count;
           total_jobs := total_jobs stats + 1;
           completed_jobs := completed_jobs stats;
           failed_jobs := failed_jobs stats;
           processing_jobs := processing_jobs stats |}).
Proof.
  intros Hmore Hllen' Hstats. unfold get_queue_stats in *. rewrite Hllen'.
  cbn [mbind result_bind].
  apply bind_Ok in Hstats as (p & _ & Hcount).
  apply count_jobs_Ok in Hcount as (Hall & _ & Ht & Hc & Hf & Hpr).
  cbn [total_jobs completed_jobs failed_jobs processing_jobs] in *.
  match goal with |- count_jobs r' _ ?s0 = _ =>
    destruct (count_jobs_returns r' (keys_job r') s0) as [stats' Hcount'] end.
  { apply Forall_forall. intros job_key Hin.
    apply (elem_of_Permutation_proper _ _ _ (keys_job_one_more r r' job Hmore)) in Hin.
    apply elem_of_cons in Hin as [->|Hin].
    - destruct Hmore as (_ & [seconds Hrecord] & _). eexists.
      exact (job_status_stored r' job seconds Hrecord).
    - rewrite (one_more_record_status r r' job job_key Hmore) by by apply list_elem_of_In.
      rewrite Forall_forall in Hall. by apply Hall. }
  rewrite Hcount'. f_equal.
  apply count_jobs_Ok in Hcount' as (_ & Hp' & Ht' & Hc' & Hf' & Hpr').
  cbn [pending_jobs total_jobs completed_jobs failed_jobs processing_jobs] in *.
  rewrite (counts_one_more r r' job) in Hc', Hf', Hpr' by exact Hmore.
  rewrite (Permutation_length (keys_job_one_more r r' job Hmore)) in Ht'.
  cbn [length] in Ht'.
  match goal with |- _ = tally ?st ?s0 =>
    destruct (tally_fields st s0) as (Hp2 & Ht2 & Hc2 & Hf2 & Hpr2) end.
  cbn [pending_jobs total_jobs completed_jobs failed_jobs processing_jobs] in *.
  apply QueueStats_eq; lia.
Qed.

Lemma llen_queue_items key (w : World) pending_count :
  llen key (redis w) = Ok pending_count →
  pending_count = Z.of_nat (length (queue_items key w)).
Proof.
  unfold llen, queue_items. destruct (redis w !! key) as [[]|]; by intros [= <-].
Qed.

(** X19: submitting a job whose id is new to the store adds one to
    [pending_jobs] and one to [total_jobs] and leaves the three status
    counters as they were: a pending job is counted under none of them. *)
Theorem get_queue_stats_after_submit self business_data (w : World) job_id w' stats :
  redis w !! ("job:" +:+ job_id) = None →
  submit_job self business_data w = (Ok job_id, w') →
  get_queue_stats self (redis w) = Ok stats →
  get_queue_stats self (redis w') =
  Ok {| pending_jobs := pending_jobs stats + 1;
        total_jobs := total_jobs stats + 1;
        completed_jobs := completed_jobs stats;
        failed_jobs := failed_jobs stats;
        processing_jobs := processing_jobs stats |}.
Proof.
  intros Hfresh Hsubmit Hstats.
  apply submit_job_Ok in Hsubmit as (Hid & _ & Hredis & _).
  set (job := ScoringJob.mk (format_uuid (entropy (host w))) business_data "pending"
                None None None (Some (clock (host w))) None) in *.
  assert (Hkey : "job:" +:+ job_id = "job:" +:+ ScoringJob.id job) by by rewrite Hid.
  assert (Hmore : one_more_record (redis w) (redis w') job).
  { unfold one_more_record. rewrite <- Hkey. split; [exact Hfresh|]. split.
    - eexists. rewrite Hredis.
      rewrite lookup_insert_ne by (apply not_eq_sym, job_key_not_queue_key).
      apply lookup_insert_eq.
    - intros job_key Hprefix Hne. rewrite Hredis.
      rewrite lookup_insert_ne by (intros <-; by rewrite queue_key_prefix in Hprefix).
      by rewrite lookup_insert_ne. }
  rewrite (get_queue_stats_one_more self (redis w) (redis w') job stats
             (pending_jobs stats + 1) Hmore); [reflexivity| |exact Hstats].
  unfold get_queue_stats in Hstats. apply bind_Ok in Hstats as (p & Hllen & Hcount).
  apply count_jobs_Ok in Hcount as (_ & -> & _). cbn [pending_jobs].
  apply llen_queue_items in Hllen as ->.
  unfold llen. rewrite Hredis, lookup_insert_eq. f_equal. cbn [length]. lia.
Qed.

(** X20: [get_queue_stats] returns exactly when the queue key holds no
    string and every key that starts with [job:] holds the text of a JSON
    object; one record of another kind makes the whole call raise. *)
Theorem get_queue_stats_returns_iff self (r : gmap string redis_value) :
  (∃ stats, get_queue_stats self r = Ok stats) ↔
  (∀ seconds value, r !! ("queue:" +:+ queue_name self) ≠ Some (RString seconds value)) ∧
  (∀ job_key held,
     String.prefix "job:" job_key = true → r !! job_key = Some held →
     ∃ seconds value d, held = RString seconds value ∧ json_loads value = Ok (VDict d)).
Proof.
  unfold get_queue_stats. split.
  - intros [stats Hstats]. apply bind_Ok in Hstats as (p & Hllen & Hcount).
    apply count_jobs_Ok in Hcount as (Hall & _). split.
    + intros seconds value Hheld. unfold llen in Hllen. by rewrite Hheld in Hllen.
    + intros job_key held Hprefix Hheld. rewrite Forall_forall in Hall.
      destruct (Hall job_key) as [status Hstatus].
      { apply list_elem_of_In, keys_job_In. split; [exact Hprefix | by eexists]. }
      apply job_status_Ok in Hstatus as (seconds & value & d & Hrecord & Hloads & _).
      rewrite Hheld in Hrecord. injection Hrecord as ->. by eexists _, _, _.
  - intros [Hqueue Hrecords].
    assert (Hllen : ∃ p, llen ("queue:" +:+ queue_name self) r = Ok p).
    { unfold llen. destruct (r !! _) as [[seconds value|items]|] eqn:Hheld;
        [by destruct (Hqueue seconds value) | by eexists..]. }
    destruct Hllen as [p ->]. cbn [mbind result_bind]. apply count_jobs_returns.
    apply Forall_forall. intros job_key [Hprefix [held Hheld]]%list_elem_of_In%keys_job_In.
    destruct (Hrecords job_key held Hprefix Hheld) as (seconds & value & d & -> & Hloads).
    eexists. apply job_status_Ok. by eexists _, _, _.
Qed.

(** X21: on a store with no queue and no key that starts with [job:],
    whatever else it holds, every count is zero. *)
Theorem get_queue_stats_no_jobs self (r : gmap string redis_value) :
  r !! ("queue:" +:+ queue_name self) = None →
  (∀ job_key, String.prefix "job:" job_key = true → r !! job_key = None) →
  get_queue_stats self r =
  Ok {| pending_jobs := 0; total_jobs := 0; completed_jobs := 0; failed_jobs := 0;
        processing_jobs := 0 |}.
Proof.
  intros Hqueue Hnone. unfold get_queue_stats, llen. rewrite Hqueue.
  cbn [mbind result_bind].
  assert (Hkeys : keys_job r = []).
  { destruct (keys_job r) as [|job_key rest] eqn:Hkeys; [reflexivity|].
    assert (Hin : In job_key (keys_job r)) by (rewrite Hkeys; by left).
    apply keys_job_In in Hin as [Hprefix Hsome]. rewrite (Hnone job_key Hprefix) in Hsome.
    by destruct Hsome. }
  rewrite Hkeys. reflexivity.
Qed.

End StatsProperties.

Section StatsPipeline.

Context `{Json}.

Variable scorer : pydict → outcome.

(** X22: from submission to statistics.  After [submit_job] of a job
    whose id is new, on an empty queue, and one turn of the worker, the
    total has one job more and nothing is pending; the job is counted as
    completed when the scoring function returned, as failed when it
    raised, and as processing when the process died while scoring (the
    scoring function is called on the business data as JSON carries
    them). *)
Theorem get_queue_stats_after_worker_turn self business_data (w : World) job_id w1 stats :
  datetime_ok (clock (host w)) = true →
  redis w !! ("queue:" +:+ queue_name self) = None →
  redis w !! ("job:" +:+ job_id) = None →
  submit_job self business_data w = (Ok job_id, w1) →
  get_queue_stats self (redis w) = Ok stats →
  get_queue_stats self (redis (worker_iteration scorer self w1).2) =
  Ok (one_more match scorer (as_json <$> business_data) with
               | Returned _ => "completed"
               | Raised _ => "failed"
               | Killed => "processing"
               end 0 stats).
Proof.
  intros Hclock Hempty Hfresh Hsubmit Hstats.
  destruct (worker_pops_submitted scorer self business_data w job_id w1 Hclock Hempty Hsubmit)
    as (-> & Htimeout & _ & _).
  apply submit_job_Ok in Hsubmit as (_ & _ & Hredis & _).
  rewrite (_process_job_run scorer) by exact Htimeout.
  cbn [ScoringJob.business_data ScoringJob.id ScoringJob.set_status snd].
  set (job_key := "job:" +:+ job_id) in *.
  set (queue_key := "queue:" +:+ queue_name self) in *.
  assert (Hother : ∀ key value value' (r : gmap string redis_value),
            String.prefix "job:" key = true → key ≠ job_key →
            r = <[queue_key := value]> (<[job_key := value']> (redis w)) →
            delete queue_key r !! key = redis w !! key).
  { intros key value value' r Hprefix Hne ->.
    assert (key ≠ queue_key)
      by (intros ->; unfold queue_key in Hprefix; by rewrite queue_key_prefix in Hprefix).
    rewrite lookup_delete_ne by done. by rewrite !lookup_insert_ne by done. }
  assert (Hllen : ∀ (r : gmap string redis_value),
            llen queue_key (delete queue_key r) = Ok 0)
    by (intros r; unfold llen; by rewrite lookup_delete_eq).
  assert (Hllen' : ∀ value (r : gmap string redis_value),
            llen queue_key (<[job_key := value]> r) = llen queue_key r).
  { intros value r. unfold llen.
    by rewrite lookup_insert_ne by apply job_key_not_queue_key. }
  destruct (scorer (as_json <$> business_data)) as [score_data|e|];
    cbn [snd redis log set_redis].
  - match goal with |- context [json_dumps (VDict (ScoringJob.to_dict (completed_with ?s ?t ?j)))] =>
      set (job := completed_with s t j) end.
    rewrite (get_queue_stats_one_more self (redis w) _ job stats 0);
      [f_equal; apply QueueStats_eq; cbn; lia | | | exact Hstats].
    + split; [exact Hfresh|]. split; [eexists; apply lookup_insert_eq|].
      intros key Hprefix Hne. cbn [ScoringJob.id job completed_with] in Hne.
      rewrite !lookup_insert_ne by (apply not_eq_sym; exact Hne).
      by eapply Hother.
    + by rewrite !Hllen'.
  - match goal with |- context [json_dumps (VDict (ScoringJob.to_dict (failed_with ?s ?t ?j)))] =>
      set (job := failed_with s t j) end.
    rewrite (get_queue_stats_one_more self (redis w) _ job stats 0);
      [f_equal; apply QueueStats_eq; cbn; lia | | | exact Hstats].
    + split; [exact Hfresh|]. split; [eexists; apply lookup_insert_eq|].
      intros key Hprefix Hne. cbn [ScoringJob.id job failed_with] in Hne.
      rewrite !lookup_insert_ne by (apply not_eq_sym; exact Hne).
      by eapply Hother.
    + by rewrite !Hllen'.
  - match goal with |- context [json_dumps (VDict (ScoringJob.to_dict ?j))] =>
      set (job := j) end.
    rewrite (get_queue_stats_one_more self (redis w) _ job stats 0);
      [f_equal; apply QueueStats_eq; cbn; lia | | | exact Hstats].
    + split; [exact Hfresh|]. split; [eexists; apply lookup_insert_eq|].
      intros key Hprefix Hne. cbn [ScoringJob.id job] in Hne.
      rewrite !lookup_insert_ne by (apply not_eq_sym; exact Hne).
      by eapply Hother.
    + by rewrite !Hllen'.
Qed.

End StatsPipeline.

Lemma get_queue_stats_counts_witness :
  let stats := {| pending_jobs := 0; total_jobs := 1; completed_jobs := 1;
                  failed_jobs := 0; processing_jobs := 0 |} in
  pending_jobs stats =
    Z.of_nat (length (queue_items ("queue:" +:+ queue_name default_scorer) scored_world)) ∧
  total_jobs stats = Z.of_nat (length (keys_job (redis scored_world))) ∧
  completed_jobs stats = Z.of_nat (length (with_status "completed" (redis scored_world))) ∧
  failed_jobs stats = Z.of_nat (length (with_status "failed" (redis scored_world))) ∧
  processing_jobs stats = Z.of_nat (length (with_status "processing" (redis scored_world))) ∧
  completed_jobs stats + failed_jobs stats + processing_jobs stats ≤ total_jobs stats.
Proof.
  apply (get_queue_stats_counts default_scorer scored_world). reflexivity.
Defined.

Lemma get_queue_stats_after_submit_witness :
  get_queue_stats default_scorer
    (redis (submit_job default_scorer saas_company_a empty_world).2) =
  Ok {| pending_jobs := 0 + 1; total_jobs := 0 + 1; completed_jobs := 0;
        failed_jobs := 0; processing_jobs := 0 |}.
Proof.
  apply (get_queue_stats_after_submit default_scorer saas_company_a empty_world
           "00000000-27e4-4b32-86be-c9b16e398115"
           (submit_job default_scorer saas_company_a empty_world).2
           {| pending_jobs := 0; total_jobs := 0; completed_jobs := 0;
              failed_jobs := 0; processing_jobs := 0 |}).
  - reflexivity.
  - reflexivity.
  - reflexivity.
Defined.

Lemma get_queue_stats_no_jobs_witness :
  get_queue_stats default_scorer (redis empty_world) =
  Ok {| pending_jobs := 0; total_jobs := 0; completed_jobs := 0; failed_jobs := 0;
        processing_jobs := 0 |}.
Proof.
  apply (get_queue_stats_no_jobs default_scorer (redis empty_world)).
  - reflexivity.
  - intros job_key _. reflexivity.
Defined.

Lemma get_queue_stats_after_worker_turn_witness :
  get_queue_stats default_scorer (redis scored_world) =
  Ok (one_more "completed" 0
        {| pending_jobs := 0; total_jobs := 0; completed_jobs := 0; failed_jobs := 0;
           processing_jobs := 0 |}).
Proof.
  apply (get_queue_stats_after_worker_turn run_score_business default_scorer saas_company_a
           empty_world "00000000-27e4-4b32-86be-c9b16e398115"
           (submit_job default_scorer saas_company_a empty_world).2).
  - reflexivity.
  - reflexivity.
  - reflexivity.
  - reflexivity.
  - reflexivity.
Defined.

(** ** Loading job documents *)

(** X23: [__post_init__] is idempotent: on a job it has been through it
    changes nothing and draws no uuid, whatever the job was before. *)
Theorem post_init_idempotent job h h' :
  ScoringJob.__post_init__ (ScoringJob.__post_init__ job h).1 h' =
  ((ScoringJob.__post_init__ job h).1, h').
Proof.
  apply post_init_constructed.
  destruct job as [id business_data status score reasoning error created_at completed_at].
  apply (init_constructed id business_data status score reasoning error created_at
           completed_at h).
Qed.

Lemma minimal_document_lookups job_id business_data :
  let data := minimal_document job_id business_data in
  data !! "id" = Some (VStr job_id) ∧
  data !! "business_data" = Some (VDict business_data) ∧
  data !! "status" = None ∧ data !! "score" = None ∧ data !! "reasoning" = None ∧
  data !! "error" = None ∧ data !! "created_at" = None ∧ data !! "completed_at" = None ∧
  bool_decide (dom data ⊆ ScoringJob.field_names) = true.
Proof.
  unfold minimal_document. generalize (VStr job_id) (VDict business_data). intros v1 v2.
  cbv zeta. repeat split; vm_compute; reflexivity.
Qed.

(** X24: a document that carries only [id] and [business_data] loads as
    the job the constructor builds from these two: pending, without
    results, created now; an empty id is replaced by a fresh uuid. *)
Theorem from_dict_minimal_document job_id business_data h :
  ScoringJob.from_dict (VDict (minimal_document job_id business_data)) h =
  (Ok (ScoringJob.new job_id business_data h).1, (ScoringJob.new job_id business_data h).2).
Proof.
  destruct (minimal_document_lookups job_id business_data)
    as (Li & Lb & Ls & Lsc & Lr & Le & Lcr & Lco & Hdom).
  unfold ScoringJob.from_dict, ScoringJob.timestamp, ScoringJob.untouched.
  rewrite Lcr, Lco. cbn [mbind result_bind]. rewrite Hdom, Li, Lb, Ls, Lsc, Lr, Le.
  cbn [mbind result_bind mret result_ret default from_option id ScoringJob.as_str
       ScoringJob.as_dict ScoringJob.as_opt_float ScoringJob.as_opt_str_list
       ScoringJob.as_opt_str].
  unfold ScoringJob.new, ScoringJob.__init__.
  by destruct (ScoringJob.__post_init__ _ h).
Qed.

(** X25: a document with a key that is no field of the job, or without
    [id], or without [business_data], is rejected: [from_dict] raises,
    builds no job and draws no uuid. *)
Theorem from_dict_rejects (data : pydict) h :
  ¬ dom data ⊆ ScoringJob.field_names ∨ data !! "id" = None ∨
    data !! "business_data" = None →
  ∃ e, ScoringJob.from_dict (VDict data) h = (Raise e, h).
Proof.
  intros Hbad. unfold ScoringJob.from_dict.
  destruct (ScoringJob.timestamp data "created_at") as [created|e]; [|by eexists].
  destruct (ScoringJob.timestamp data "completed_at") as [completed|e]; [|by eexists].
  cbn [mbind result_bind].
  destruct (bool_decide (dom data ⊆ ScoringJob.field_names)) eqn:Hdom; [|by eexists].
  apply bool_decide_eq_true in Hdom. cbn [mbind result_bind].
  destruct (data !! "id") as [id_v|]; [|by eexists]. cbn [mbind result_bind].
  destruct (data !! "business_data") as [bd_v|]; [|by eexists].
  by destruct Hbad as [?|[?|?]].
Qed.

Lemma at_utc_ok d : datetime_ok d = true → datetime_ok (at_utc d) = true.
Proof.
  unfold datetime_ok, at_utc. cbn [year month day hour minute second microsecond utcoffset].
  intros Hok. apply andb_prop in Hok as [Hok _]. by rewrite Hok.
Qed.

Lemma append_empty_r (s : string) : s +:+ "" = s.
Proof. induction s as [|c s IH]; [reflexivity|]. by rewrite append_String, IH. Qed.

Lemma isoformat_at_utc d :
  utcoffset d = None → isoformat (at_utc d) = isoformat d +:+ "+00:00".
Proof.
  intros Hnaive. unfold isoformat, at_utc.
  cbn [year month day hour minute second microsecond utcoffset]. rewrite Hnaive.
  change (format_offset (Some 0)) with "+00:00". change (format_offset None) with "".
  rewrite append_empty_r. by rewrite !append_assoc.
Qed.

(** X26: [from_dict] reads a creation time written with a trailing [Z]
    as that wall time at UTC: the job comes back with an aware
    [created_at] of offset zero. *)
Theorem from_dict_reads_Z_as_utc job d h :
  ScoringJob.id job ≠ "" →
  (∀ c, ScoringJob.completed_at job = Some c → datetime_ok c = true) →
  datetime_ok d = true → utcoffset d = None →
  ScoringJob.from_dict (VDict (zulu_document job d)) h =
  (Ok (ScoringJob.set_created_at (Some (at_utc d)) job), h).
Proof.
  intros Hid Hco Hok Hnaive.
  destruct (to_dict_lookups job) as (Li & Lb & Ls & Lsc & Lr & Le & Lcr & Lco).
  assert (Hstamp : ScoringJob.timestamp (zulu_document job d) "created_at" =
                   Ok (Some (at_utc d))).
  { unfold ScoringJob.timestamp, zulu_document. rewrite lookup_insert_eq.
    replace (truthy (VStr (isoformat d +:+ "Z"))) with true by reflexivity.
    rewrite str_replace_app, str_replace_Z_isoformat.
    replace (str_replace "Z" "+00:00" "Z") with "+00:00" by reflexivity.
    rewrite <- isoformat_at_utc by exact Hnaive.
    rewrite <- (str_replace_Z_isoformat (at_utc d)).
    by rewrite fromisoformat_isoformat by by apply at_utc_ok. }
  assert (Hdom : bool_decide (dom (zulu_document job d) ⊆ ScoringJob.field_names) = true).
  { unfold zulu_document. rewrite dom_insert_lookup_L by (by rewrite Lcr).
    apply to_dict_keys. }
  unfold ScoringJob.from_dict. rewrite Hstamp.
  assert (Hlookup : ∀ key, key ≠ "created_at" →
            zulu_document job d !! key = ScoringJob.to_dict job !! key).
  { intros key Hne. unfold zulu_document. by rewrite lookup_insert_ne. }
  rewrite (timestamp_to_dict _ "completed_at" (ScoringJob.completed_at job))
    by (rewrite ?Hlookup by done; done).
  cbn [mbind result_bind]. rewrite Hdom. cbn [mbind result_bind].
  rewrite !Hlookup by done. rewrite Li, Lb, Ls, Lsc, Lr, Le.
  cbn [mbind result_bind default from_option id ScoringJob.as_str ScoringJob.as_dict].
  assert (Hsc : ScoringJob.as_opt_float "score"
                  (ScoringJob.opt_val VFloat (ScoringJob.score job)) =
                Ok (ScoringJob.score job)) by (by destruct (ScoringJob.score job)).
  assert (Hr : ScoringJob.as_opt_str_list "reasoning"
                 (ScoringJob.opt_val (λ l, VList (VStr <$> l)) (ScoringJob.reasoning job)) =
               Ok (ScoringJob.reasoning job)).
  { destruct (ScoringJob.reasoning job) as [l|]; [|reflexivity]. simpl.
    by rewrite as_str_list_fmap. }
  assert (He : ScoringJob.as_opt_str "error"
                 (ScoringJob.opt_val VStr (ScoringJob.error job)) =
               Ok (ScoringJob.error job)) by (by destruct (ScoringJob.error job)).
  assert (Hun : ScoringJob.untouched "completed_at" (zulu_document job d)
                  (ScoringJob.completed_at job) = Ok (ScoringJob.completed_at job)).
  { unfold ScoringJob.untouched. rewrite Hlookup by done. rewrite Lco.
    by destruct (ScoringJob.completed_at job). }
  rewrite Hsc, Hr, He, Hun. cbn [mbind result_bind mret result_ret].
  rewrite post_init_constructed; [reflexivity|].
  split; [exact Hid | by eexists].
Qed.

Lemma from_dict_rejects_witness :
  ∃ e, ScoringJob.from_dict (VDict document_with_priority) leap_day_host =
       (Raise e, leap_day_host).
Proof.
  apply (from_dict_rejects document_with_priority leap_day_host). left.
  apply (bool_decide_eq_false_1 (dom document_with_priority ⊆ ScoringJob.field_names)).
  vm_compute. reflexivity.
Defined.

Lemma from_dict_reads_Z_as_utc_witness :
  ScoringJob.from_dict
    (VDict (zulu_document completed_job (Datetime 2024 2 29 13 5 9 17 None))) leap_day_host =
  (Ok (ScoringJob.set_created_at (Some (at_utc (Datetime 2024 2 29 13 5 9 17 None)))
         completed_job), leap_day_host).
Proof.
  apply (from_dict_reads_Z_as_utc completed_job (Datetime 2024 2 29 13 5 9 17 None)
           leap_day_host).
  - discriminate.
  - intros c [= <-]. reflexivity.
  - reflexivity.
  - reflexivity.
Defined.







(** ** Draining the queue *)

Section DrainProperties.

Context `{Json}.

Variable scorer : pydict → outcome.






End DrainProperties.


(** ** Reasoning *)

(** X29: the sentences on revenue, growth and experience follow the
    integer inputs through three bands each: the two lowest scores of
    each ladder share a sentence.  Revenue below 5000 needs improvement,
    below 15000 is moderate, from 15000 on strong, whatever the profit;
    growth changes sentence at 5 and 15, experience at 3 and 5 years. *)
Theorem reasoning_follows_inputs business_data revenue growth years sd :
  dict_get business_data "monthly_revenue" (VInt 0) = VInt revenue →
  dict_get business_data "growth_rate" (VInt 0) = VInt growth →
  dict_get business_data "years_operated" (VInt 0) = VInt years →
  _score_business business_data = Ok sd →
  sd_reasoning sd !! 0%nat =
    Some (if revenue <? 5000 then "Revenue needs improvement for better investment appeal"
          else if revenue <? 15000 then "Moderate revenue with decent profit margins"
          else "Strong revenue generation with healthy profitability") ∧
  sd_reasoning sd !! 1%nat =
    Some (if growth <? 5 then "Growth is limited, may need strategic improvements"
          else if growth <? 15 then "Steady growth with potential for acceleration"
          else "Excellent growth trajectory indicating market opportunity") ∧
  sd_reasoning sd !! 3%nat =
    Some (if years <? 3 then "Newer operation requiring additional validation"
          else if years <? 5 then "Some operational experience with growth potential"
          else "Proven track record with established operations").
Proof.
  intros Hrevenue Hgrowth Hyears Hsd.
  apply _score_business_inv in Hsd as (r & g & m & e & (Hr & Hg & _ & He & _) & ->).
  rewrite Hrevenue in Hr. rewrite Hgrowth in Hg. rewrite Hyears in He.
  unfold _generate_reasoning. cbn [app lookup list_lookup].
  split; [|split]; f_equal.
  - revert Hr. unfold _score_revenue. cbn [lt_int mbind result_bind].
    repeat match goal with
    | |- context [?a <? ?b] =>
        destruct (Z.ltb_spec a b); cbn [mbind result_bind]; try lia
    end; by intros [= <-].
  - revert Hg. unfold _score_growth. cbn [lt_int mbind result_bind].
    repeat match goal with
    | |- context [?a <? ?b] =>
        destruct (Z.ltb_spec a b); cbn [mbind result_bind]; try lia
    end; by intros [= <-].
  - revert He. unfold _score_experience. cbn [lt_int mbind result_bind].
    repeat match goal with
    | |- context [?a <? ?b] =>
        destruct (Z.ltb_spec a b); cbn [mbind result_bind]; try lia
    end; by intros [= <-].
Qed.

Lemma reasoning_follows_inputs_witness :
  _generate_reasoning 80 80 108 70 saas_company_a !! 0%nat =
    Some "Strong revenue generation with healthy profitability" ∧
  _generate_reasoning 80 80 108 70 saas_company_a !! 1%nat =
    Some "Excellent growth trajectory indicating market opportunity" ∧
  _generate_reasoning 80 80 108 70 saas_company_a !! 3%nat =
    Some "Some operational experience with growth potential".
Proof.
  apply (reasoning_follows_inputs saas_company_a 25000 25 3
           (ScoreData 85 (_generate_reasoning 80 80 108 70 saas_company_a))).
  - reflexivity.
  - reflexivity.
  - reflexivity.
  - vm_compute. reflexivity.
Defined.
